(** * TechCorp expense tracker: the logic of [src/App.tsx]

    The component keeps its state in React state variables, talks to a
    webhook and to a hosted table, and derives summary statistics from the
    list of expenses it holds.  This development embeds that logic:

    - [JS]: the fragment of the language the component relies on: numbers
      (IEEE-754 binary64), truthiness, [String.prototype.trim], property
      lookup and enumeration order of an object literal, [JSON.stringify]
      of a flat record;
    - [calculateStats] and its loops, as a function of the rows held and,
      in [Heap], as a program over a heap that holds the array, its rows
      and the objects the function creates;
    - the event handlers, written as functions from the state captured by
      the handler's closure (and the environment's answer, for the
      asynchronous ones) to the sequence of effects they perform, together
      with the interpretation of those effects on the browser state. *)

From Stdlib Require Import Floats ZArith Ascii String DecimalString.
From stdpp Require Import gmap strings list sorting pretty.

Set Warnings "-inexact-float,-clear-no-such-hyp".
#[local] Open Scope string_scope.
#[local] Open Scope list_scope.

(** ** The JavaScript fragment *)

Module JS.

(** *** Numbers

    A JS [number] is a binary64 float; [x + y] is [PrimFloat.add]. *)

Abbreviation number := float.

(** [ToBoolean] on a number: [0], [-0] and [NaN] are falsy. *)
Definition number_truthy (x : number) : bool :=
  match Prim2SF x with
  | S754_zero _ | S754_nan => false
  | S754_infinity _ | S754_finite _ _ _ => true
  end.

(** The mathematical value of a finite number, counted in units of
    [2^-1074] (every finite binary64 is an integer multiple of it);
    [None] for [NaN] and the infinities. *)
Definition exact_value (x : number) : option Z :=
  match Prim2SF x with
  | S754_zero _ => Some 0%Z
  | S754_finite s m e =>
      let v := Z.shiftl (Z.pos m) (e + 1074) in
      Some (if s then Z.opp v else v)
  | S754_infinity _ | S754_nan => None
  end.

(** [x + y] incurs no rounding: both operands and the result are finite
    and the result is the mathematical sum. *)
Definition exact_add (p : number * number) : bool :=
  match exact_value p.1, exact_value p.2, exact_value (p.1 + p.2)%float with
  | Some a, Some b, Some c => bool_decide (c = (a + b)%Z)
  | _, _, _ => false
  end.

(** *** Values

    The values that reach [byCategory]: numbers; strings that result
    from [+] with a non-number operand (non-empty, their text is not
    modelled); the functions and objects found on [Object.prototype];
    [undefined]. *)

Inductive Value :=
| Num (x : number)
| Text
| Obj
| Undefined.

#[export] Instance Value_inhabited : Inhabited Value := populate Undefined.

Definition truthy (v : Value) : bool :=
  match v with
  | Num x => number_truthy x
  | Text | Obj => true
  | Undefined => false
  end.

(** [v || d] *)
Definition or (v d : Value) : Value := if truthy v then v else d.

(** [v + a] for a number [a]: numeric addition on numbers, [NaN] on
    [undefined], string concatenation otherwise. *)
Definition plus (v : Value) (a : number) : Value :=
  match v with
  | Num x => Num (x + a)%float
  | Undefined => Num nan
  | Text | Obj => Text
  end.

(** *** Objects

    An object created by the literal [{}]: its own properties in the
    order they were created, with [Object.prototype] behind it. *)

Abbreviation Object := (list (string * Value)).

Definition Object_prototype : list string :=
  [ "constructor"; "hasOwnProperty"; "isPrototypeOf";
    "propertyIsEnumerable"; "toLocaleString"; "toString"; "valueOf";
    "__proto__"; "__defineGetter__"; "__defineSetter__";
    "__lookupGetter__"; "__lookupSetter__" ].

Fixpoint own (o : Object) (k : string) : option Value :=
  match o with
  | [] => None
  | (k', v) :: o' => if String.eqb k' k then Some v else own o' k
  end.

(** [o[k]] *)
Definition get (o : Object) (k : string) : Value :=
  match own o k with
  | Some v => v
  | None => if bool_decide (k ∈ Object_prototype) then Obj else Undefined
  end.

Fixpoint define (o : Object) (k : string) (v : Value) : Object :=
  match o with
  | [] => [(k, v)]
  | (k', v') :: o' =>
      if String.eqb k' k then (k', v) :: o' else (k', v') :: define o' k v
  end.

(** [o[k] = v] for a primitive [v]: the setter of [__proto__] ignores
    primitives; any other key becomes (or stays) an own property. *)
Definition set (o : Object) (k : string) (v : Value) : Object :=
  if String.eqb k "__proto__" then o else define o k v.

(** An array index: the canonical decimal form of an integer in
    [0 .. 2^32 - 2]. *)
Definition is_digit (c : ascii) : bool :=
  ((48 <=? N_of_ascii c) && (N_of_ascii c <=? 57))%N.

Fixpoint digits_value (acc : N) (s : string) : option N :=
  match s with
  | EmptyString => Some acc
  | String c s' =>
      if is_digit c
      then digits_value (10 * acc + (N_of_ascii c - 48))%N s'
      else None
  end.

Definition array_index (k : string) : option N :=
  match k with
  | EmptyString => None
  | String c s' =>
      if (N_of_ascii c =? 48)%N && negb (String.eqb s' EmptyString) then None
      else
        match digits_value 0 k with
        | Some n => if (n <=? 4294967294)%N then Some n else None
        | None => None
        end
  end.

Definition indexed (p : string * Value) : option (N * (string * Value)) :=
  match array_index p.1 with
  | Some n => Some (n, p)
  | None => None
  end.

Definition index_le (a b : N * (string * Value)) : Prop := (a.1 <= b.1)%N.

#[export] Instance index_le_dec : RelDecision index_le.
Proof. intros a b. unfold index_le. apply _. Defined.

(** [Object.entries(o)]: array-index keys in ascending numeric order,
    then the other keys in creation order. *)
Definition Object_entries (o : Object) : list (string * Value) :=
  (snd <$> merge_sort index_le (omap indexed o))
  ++ filter (λ p, array_index p.1 = None) o.

Definition Object_keys (o : Object) : list string := fst <$> Object_entries o.
Definition Object_values (o : Object) : list Value := snd <$> Object_entries o.

(** *** Strings

    Strings are kept in UTF-8.  [ToBoolean] on a string: only the empty
    string is falsy. *)

Definition string_truthy (s : string) : bool :=
  match s with
  | EmptyString => false
  | String _ _ => true
  end.

(** [s || d] on an optional string ([None] stands for [null] and
    [undefined]). *)
Definition string_or (s : option string) (d : string) : string :=
  match s with
  | Some s => if string_truthy s then s else d
  | None => d
  end.

(** The code points [trim] removes (WhiteSpace and LineTerminator of
    the language definition), by the bytes of their UTF-8 encoding. *)
Definition white1 (a : ascii) : bool :=
  let a := N_of_ascii a in
  ((9 <=? a) && (a <=? 13) || (a =? 32))%N.

(** U+00A0 *)
Definition white2 (a b : ascii) : bool :=
  let a := N_of_ascii a in
  let b := N_of_ascii b in
  ((a =? 194) && (b =? 160))%N.

(** U+1680, U+2000..U+200A, U+2028, U+2029, U+202F, U+205F, U+3000,
    U+FEFF *)
Definition white3 (a b c : ascii) : bool :=
  let a := N_of_ascii a in
  let b := N_of_ascii b in
  let c := N_of_ascii c in
  ((a =? 225) && (b =? 154) && (c =? 128)
   || (a =? 226) && (b =? 128)
      && ((128 <=? c) && (c <=? 138) || (c =? 168) || (c =? 169) || (c =? 175))
   || (a =? 226) && (b =? 129) && (c =? 159)
   || (a =? 227) && (b =? 128) && (c =? 128)
   || (a =? 239) && (b =? 187) && (c =? 191))%N.

(** Drops the white space at the head of a byte sequence; with
    [backwards] the sequence is a reversed string, so that the bytes of
    an encoded code point come last byte first. *)
Fixpoint strip (backwards : bool) (l : list ascii) : list ascii :=
  match l with
  | [] => []
  | a :: l1 =>
      if white1 a then strip backwards l1
      else
        match l1 with
        | [] => l
        | b :: l2 =>
            if (if backwards then white2 b a else white2 a b)
            then strip backwards l2
            else
              match l2 with
              | [] => l
              | c :: l3 =>
                  if (if backwards then white3 c b a else white3 a b c)
                  then strip backwards l3
                  else l
              end
        end
  end.

(** [s.trim()] *)
Definition trim (s : string) : string :=
  string_of_list_ascii
    (rev (strip true (rev (strip false (list_ascii_of_string s))))).

(** [String(n)] for a non-negative integer. *)
Definition integer_to_string (n : N) : string := pretty n.

(** [JSON.stringify] of a string: quotes, with the two-character
    escapes and [\u00xx] for the other control characters. *)
Definition quote : string := String (ascii_of_N 34) EmptyString.
Definition backslash : string := String (ascii_of_N 92) EmptyString.

Definition hex_digit (n : N) : ascii :=
  if (n <? 10)%N then ascii_of_N (48 + n) else ascii_of_N (87 + n).

Definition escape (c : ascii) : string :=
  let n := N_of_ascii c in
  if (n =? 8)%N then backslash +:+ "b"
  else if (n =? 9)%N then backslash +:+ "t"
  else if (n =? 10)%N then backslash +:+ "n"
  else if (n =? 12)%N then backslash +:+ "f"
  else if (n =? 13)%N then backslash +:+ "r"
  else if (n =? 34)%N then backslash +:+ quote
  else if (n =? 92)%N then backslash +:+ backslash
  else if (n <? 32)%N then
    backslash +:+ "u00"
    +:+ String (hex_digit (n / 16)) (String (hex_digit (n mod 16)) EmptyString)
  else String c EmptyString.

Fixpoint escape_all (s : string) : string :=
  match s with
  | EmptyString => EmptyString
  | String c s' => escape c +:+ escape_all s'
  end.

Definition JSON_stringify_string (s : string) : string :=
  quote +:+ escape_all s +:+ quote.

(** [JSON.stringify] of an object whose properties are strings. *)
Fixpoint JSON_members (fields : list (string * string)) : string :=
  match fields with
  | [] => EmptyString
  | [(k, v)] => JSON_stringify_string k +:+ ":" +:+ JSON_stringify_string v
  | (k, v) :: rest =>
      JSON_stringify_string k +:+ ":" +:+ JSON_stringify_string v
      +:+ "," +:+ JSON_members rest
  end.

Definition JSON_stringify (fields : list (string * string)) : string :=
  "{" +:+ JSON_members fields +:+ "}".

End JS.

Import JS.

(** ** Data model *)

Record Employee := { fullName : string; employeeId : string }.

(** A row of the [expenses] table as the client receives it.  [amount] and
    [category] are declared [number] and [string]; the code guards both
    with [||], so a [null] (here [None]) is part of the input. *)
Module Expense.
Record t := mk {
  id : string;
  employee_id : string;
  receipt_image_url : option string;
  merchant : option string;
  receipt_date : option string;
  amount : option number;
  currency : string;
  category : option string;
  status : string;
  status_reason : option string;
  comment : option string;
  created_at : string
}.
End Expense.

Abbreviation Expense := Expense.t.

(** ** Statistics *)

Record Stats := {
  total : number;
  approved : nat;
  rejected : nat;
  pending : nat;
  byCategory : Object
}.

(** [exp.amount || 0] *)
Definition amount_or_zero (exp : Expense) : number :=
  match Expense.amount exp with
  | Some x => if number_truthy x then x else 0%float
  | None => 0%float
  end.

(** [exp.category || 'Други'] *)
Definition category_or_other (exp : Expense) : string :=
  string_or (Expense.category exp) "Други".

(** The array methods read the [expenses] array they are called on; the
    array is threaded through so that what a call leaves behind can be
    stated. *)
Definition OnArray (A : Type) : Type := list Expense → A * list Expense.

#[export] Instance OnArray_ret : MRet OnArray := λ A a arr, (a, arr).

#[export] Instance OnArray_bind : MBind OnArray :=
  λ A B k m arr, let '(a, arr') := m arr in k a arr'.

(** [expenses.reduce(f, init)] *)
Definition reduce {B} (f : B → Expense → B) (init : B) : OnArray B :=
  λ arr, (foldl f init arr, arr).

(** [expenses.filter(p).length]: [filter] builds a new array. *)
Definition filter_length (P : Expense → Prop) `{∀ exp, Decision (P exp)}
  : OnArray nat :=
  λ arr, (length (filter P arr), arr).

(** [expenses.forEach(f)], for a callback that updates the local [acc]. *)
Definition forEach {S} (f : S → Expense → S) (acc : S) : OnArray S :=
  λ arr, (foldl f acc arr, arr).

(** The body of the grouping loop:
    [byCategory[cat] = (byCategory[cat] || 0) + (exp.amount || 0)]. *)
Definition group (byCategory : Object) (exp : Expense) : Object :=
  let cat := category_or_other exp in
  JS.set byCategory cat
    (plus (or (get byCategory cat) (Num 0)) (amount_or_zero exp)).

Definition calculateStats : OnArray Stats :=
  total ← reduce (λ sum exp, (sum + amount_or_zero exp)%float) 0%float ;
  approved ← filter_length (λ exp, Expense.status exp = "Approved") ;
  rejected ← filter_length (λ exp, Expense.status exp = "Rejected") ;
  pending ← filter_length (λ exp, Expense.status exp = "Manual Review") ;
  byCategory ← forEach group [] ;
  mret {| total := total; approved := approved; rejected := rejected;
         pending := pending; byCategory := byCategory |}.

(** [const stats = calculateStats()] *)
Definition stats (expenses : list Expense) : Stats := (calculateStats expenses).1.

(** *** Notions used to state properties of the statistics *)

(** The labels of a list in the order of their first occurrence. *)
Fixpoint first_seen (labels : list string) : list string :=
  match labels with
  | [] => []
  | c :: rest => c :: filter (λ c', c' ≠ c) (first_seen rest)
  end.

(** The mathematical sum of a list of values (in units of [2^-1074]),
    when all of them are finite numbers. *)
Fixpoint exact_sum (vs : list Value) : option Z :=
  match vs with
  | [] => Some 0%Z
  | Num x :: vs' =>
      match exact_value x, exact_sum vs' with
      | Some a, Some s => Some (a + s)%Z
      | _, _ => None
      end
  | _ :: _ => None
  end.

(** The sum of a list of values as [+] computes it, left to right. *)
Definition float_sum (vs : list Value) : Value :=
  foldl (λ acc v, match v with Num x => plus acc x | _ => Text end)
    (Num 0) vs.

(** The operands of each [+] on numbers that the [reduce] of
    [calculateStats] evaluates, in order, from the accumulator [sum]. *)
Fixpoint total_additions (sum : number) (expenses : list Expense)
  : list (number * number) :=
  match expenses with
  | [] => []
  | exp :: rest =>
      (sum, amount_or_zero exp)
      :: total_additions (sum + amount_or_zero exp)%float rest
  end.

(** The same for the grouping loop, from the object [byCategory]. *)
Fixpoint group_additions (byCategory : Object) (expenses : list Expense)
  : list (number * number) :=
  match expenses with
  | [] => []
  | exp :: rest =>
      match or (get byCategory (category_or_other exp)) (Num 0) with
      | Num x => [(x, amount_or_zero exp)]
      | Text | Obj | Undefined => []
      end
      ++ group_additions (group byCategory exp) rest
  end.

(** A row with the three properties the statistics read; the others are
    left empty. *)
Definition row (amount : option number) (status : string)
    (category : option string) : Expense :=
  Expense.mk EmptyString EmptyString None None None amount "BGN" category
    status None None EmptyString.

(** ** Component state *)

Inductive MessageType := success | error | info.

Module Message.
Record t := mk { type : MessageType; text : string }.
End Message.

Abbreviation Message := Message.t.

(** A [File] as the handlers use it: its name and declared media type. *)
Module File.
Record t := mk { name : string; type : string }.
End File.

Abbreviation File := File.t.

(** The [useState] variables of [App]. *)
Record AppState := {
  employee : Employee;
  employeeMessage : option Message;
  isEmployeeSaved : bool;
  comment : string;
  selectedFile : option File;
  isSubmitting : bool;
  expenseMessage : option Message;
  expenses : list Expense;
  isLoadingHistory : bool;
  historyError : option string
}.

Definition N8N_WEBHOOK_URL : string :=
  "https://n8n.simeontsvetanovn8nworkflows.site/webhook/expense-submit".

Definition ALLOWED_FILE_TYPES : list string :=
  ["image/jpeg"; "image/jpg"; "image/png"; "image/webp"; "image/gif"].

(** ** Effects *)

Inductive FormValue :=
| field (value : string)
| blob (file : File).

(** A [FormData]: its entries in the order of the [append] calls. *)
Abbreviation FormData := (list (string * FormValue)).

(** What a pending timer will run. [refreshHistory] carries the state its
    [fetchExpenseHistory] closed over. *)
Inductive Callback :=
| clearEmployeeMessage
| refreshHistory (closure : AppState).

(** What a handler does, one constructor per call it makes. *)
Inductive Effect :=
| setEmployee (e : Employee)
| setEmployeeMessage (m : option Message)
| setIsEmployeeSaved (b : bool)
| setComment (s : string)
| setSelectedFile (f : option File)
| setIsSubmitting (b : bool)
| setExpenseMessage (m : option Message)
| setExpenses (l : list Expense)
| setIsLoadingHistory (b : bool)
| setHistoryError (e : option string)
| localStorage_setItem (key value : string)
| fetch (url method : string) (body : FormData)
| supabase_select (table columns eq_column eq_value order_column : string)
    (ascending : bool)
| setTimeout (callback : Callback) (ms : nat)
| console_error
| clearFileInput.

(** ** Answers of the environment *)

(** A thrown value, by its [message] property. *)
Record Thrown := { message : option string }.

(** The parsed body of a response, by the two properties the handler
    reads (the workflow answers [{ status: string, reason?: string }]). *)
Module Body.
Record t := mk { status : option string; reason : option string }.
End Body.

Module Response.
Record t := mk {
  status : N;
  content_type : option string;   (* headers.get('content-type') *)
  json : option Body.t            (* None: json() rejects *)
}.

(** [response.ok] *)
Definition ok (r : t) : bool := ((200 <=? status r) && (status r <=? 299))%N.
End Response.

Inductive FetchResult :=
| fetch_rejects (e : Thrown)
| fetch_resolves (r : Response.t).

(** The result of the query: a thrown value, or [{ data, error }]. *)
Inductive QueryResult :=
| query_rejects (e : Thrown)
| query_resolves (data : option (list Expense)) (error : option Thrown).

(** ** Handlers *)

(** [!isEmployeeSaved || !employee.fullName || !employee.employeeId] *)
Definition no_identity (st : AppState) : bool :=
  negb (isEmployeeSaved st)
  || negb (string_truthy (fullName (employee st)))
  || negb (string_truthy (employeeId (employee st))).

Definition history_error_text : string :=
  "Грешка при зареждане на историята. Моля, опитайте отново.".

Definition fetchExpenseHistory (st : AppState) (answer : QueryResult)
  : list Effect :=
  if no_identity st then []
  else
    let catch := [console_error; setHistoryError (Some history_error_text)] in
    [ setIsLoadingHistory true;
      setHistoryError None;
      supabase_select "expenses" "*" "employee_id" (employeeId (employee st))
        "created_at" false ]
    ++ match answer with
       | query_rejects _ => catch
       | query_resolves _ (Some _) => catch
       | query_resolves data None => [setExpenses (default [] data)]
       end
    ++ [setIsLoadingHistory false].

Definition name_required : Message :=
  Message.mk error "Моля, въведете пълното си име.".

Definition id_required : Message :=
  Message.mk error "Моля, въведете служебния си номер.".

Definition saved_message : Message :=
  Message.mk success "Данните са запазени успешно!".

Definition handleSaveEmployee (st : AppState) : list Effect :=
  setEmployeeMessage None ::
  if negb (string_truthy (trim (fullName (employee st)))) then
    [setEmployeeMessage (Some name_required)]
  else if negb (string_truthy (trim (employeeId (employee st)))) then
    [setEmployeeMessage (Some id_required)]
  else
    [ localStorage_setItem "techcorp_employee"
        (JSON_stringify
           [ ("fullName", trim (fullName (employee st)));
             ("employeeId", trim (employeeId (employee st))) ]);
      setIsEmployeeSaved true;
      setEmployeeMessage (Some saved_message);
      setTimeout clearEmployeeMessage 3000 ].

Definition invalid_format : Message :=
  Message.mk error
    "Невалиден формат на файла. Позволени са: JPG, JPEG, PNG, WEBP, GIF.".

(** [e.target.files?.[0]] is [file]. *)
Definition handleFileChange (file : option File) : list Effect :=
  match file with
  | None => []
  | Some f =>
      if bool_decide (File.type f ∈ ALLOWED_FILE_TYPES)
      then [setSelectedFile (Some f); setExpenseMessage None]
      else [setExpenseMessage (Some invalid_format); setSelectedFile None;
            clearFileInput]
  end.

Definition identity_required : Message :=
  Message.mk error
    ("Моля, първо въведете и запазете вашите данни в секция "
     +:+ quote +:+ "Идентификация" +:+ quote +:+ ".").

Definition receipt_or_description_required : Message :=
  Message.mk error
    "Моля, качете снимка на касова бележка или въведете описание на разхода.".

Definition submit_failed (e : Thrown) : Message :=
  Message.mk error
    ("Грешка при изпращане на разхода: "
     +:+ string_or (message e) "Моля, опитайте отново.").

Definition http_error (r : Response.t) : Thrown :=
  {| message :=
       Some ("HTTP error! status: " +:+ integer_to_string (Response.status r)) |}.

(** [contentType && contentType.includes('application/json')] *)
Definition declares_json (r : Response.t) : bool :=
  match Response.content_type r with
  | Some ct =>
      string_truthy ct && bool_decide (is_Some (String.index 0 "application/json" ct))
  | None => false
  end.

Definition processed_message (status : string) (reason : option string)
  : Message :=
  Message.mk success
    ("Разходът е обработен! Статус: " +:+ status
     +:+ match reason with
         | Some r => if string_truthy r then " - " +:+ r else EmptyString
         | None => EmptyString
         end).

Definition sent_message : Message :=
  Message.mk success "Разходът е изпратен успешно за обработка!".

Definition formData (st : AppState) : FormData :=
  ([ ("full_name", field (fullName (employee st)));
    ("employee_id", field (employeeId (employee st)));
    ("comment", field (trim (comment st))) ]
  ++ match selectedFile st with
     | Some f => [("receipt_file", blob f)]
     | None => []
     end)%list.

Definition handleSubmitExpense (st : AppState) (answer : FetchResult)
  : list Effect :=
  setExpenseMessage None ::
  if no_identity st then
    [setExpenseMessage (Some identity_required)]
  else if bool_decide (selectedFile st = None)
          && negb (string_truthy (trim (comment st))) then
    [setExpenseMessage (Some receipt_or_description_required)]
  else if match selectedFile st with
          | Some f => negb (bool_decide (File.type f ∈ ALLOWED_FILE_TYPES))
          | None => false
          end then
    [setExpenseMessage (Some invalid_format)]
  else
    let catch e := [console_error; setExpenseMessage (Some (submit_failed e))] in
    [ setIsSubmitting true;
      fetch N8N_WEBHOOK_URL "POST" (formData st) ]
    ++ match answer with
       | fetch_rejects e => catch e
       | fetch_resolves response =>
           if negb (Response.ok response) then catch (http_error response)
           else
             let responseData :=
               if declares_json response then Response.json response else None in
             [ setComment EmptyString;
               setSelectedFile None;
               clearFileInput;
               setExpenseMessage
                 (Some match responseData with
                       | Some data =>
                           match Body.status data with
                           | Some status =>
                               if string_truthy status
                               then processed_message status (Body.reason data)
                               else sent_message
                           | None => sent_message
                           end
                       | None => sent_message
                       end);
               setTimeout (refreshHistory st) 1000 ]
       end
    ++ [setIsSubmitting false].

(** ** The browser: component state, local storage, pending timers *)

Record Browser := {
  ui : AppState;
  localStorage : gmap string string;
  timers : list (nat * Callback);   (* due time in ms, callback *)
  clock : nat
}.

Definition with_ui (f : AppState → AppState) (b : Browser) : Browser :=
  {| ui := f (ui b); localStorage := localStorage b;
     timers := timers b; clock := clock b |}.

(** A timer is queued behind those due no later than it. *)
Fixpoint schedule (due : nat) (cb : Callback) (ts : list (nat * Callback))
  : list (nat * Callback) :=
  match ts with
  | [] => [(due, cb)]
  | (d, c) :: ts' =>
      if (d <=? due)%nat then (d, c) :: schedule due cb ts'
      else (due, cb) :: ts
  end.

Definition perform (b : Browser) (eff : Effect) : Browser :=
  match eff with
  | setEmployee e =>
      with_ui (λ st,
        {| employee := e; employeeMessage := employeeMessage st;
           isEmployeeSaved := isEmployeeSaved st; comment := comment st;
           selectedFile := selectedFile st; isSubmitting := isSubmitting st;
           expenseMessage := expenseMessage st; expenses := expenses st;
           isLoadingHistory := isLoadingHistory st;
           historyError := historyError st |}) b
  | setEmployeeMessage m =>
      with_ui (λ st,
        {| employee := employee st; employeeMessage := m;
           isEmployeeSaved := isEmployeeSaved st; comment := comment st;
           selectedFile := selectedFile st; isSubmitting := isSubmitting st;
           expenseMessage := expenseMessage st; expenses := expenses st;
           isLoadingHistory := isLoadingHistory st;
           historyError := historyError st |}) b
  | setIsEmployeeSaved v =>
      with_ui (λ st,
        {| employee := employee st; employeeMessage := employeeMessage st;
           isEmployeeSaved := v; comment := comment st;
           selectedFile := selectedFile st; isSubmitting := isSubmitting st;
           expenseMessage := expenseMessage st; expenses := expenses st;
           isLoadingHistory := isLoadingHistory st;
           historyError := historyError st |}) b
  | setComment s =>
      with_ui (λ st,
        {| employee := employee st; employeeMessage := employeeMessage st;
           isEmployeeSaved := isEmployeeSaved st; comment := s;
           selectedFile := selectedFile st; isSubmitting := isSubmitting st;
           expenseMessage := expenseMessage st; expenses := expenses st;
           isLoadingHistory := isLoadingHistory st;
           historyError := historyError st |}) b
  | setSelectedFile f =>
      with_ui (λ st,
        {| employee := employee st; employeeMessage := employeeMessage st;
           isEmployeeSaved := isEmployeeSaved st; comment := comment st;
           selectedFile := f; isSubmitting := isSubmitting st;
           expenseMessage := expenseMessage st; expenses := expenses st;
           isLoadingHistory := isLoadingHistory st;
           historyError := historyError st |}) b
  | setIsSubmitting v =>
      with_ui (λ st,
        {| employee := employee st; employeeMessage := employeeMessage st;
           isEmployeeSaved := isEmployeeSaved st; comment := comment st;
           selectedFile := selectedFile st; isSubmitting := v;
           expenseMessage := expenseMessage st; expenses := expenses st;
           isLoadingHistory := isLoadingHistory st;
           historyError := historyError st |}) b
  | setExpenseMessage m =>
      with_ui (λ st,
        {| employee := employee st; employeeMessage := employeeMessage st;
           isEmployeeSaved := isEmployeeSaved st; comment := comment st;
           selectedFile := selectedFile st; isSubmitting := isSubmitting st;
           expenseMessage := m; expenses := expenses st;
           isLoadingHistory := isLoadingHistory st;
           historyError := historyError st |}) b
  | setExpenses l =>
      with_ui (λ st,
        {| employee := employee st; employeeMessage := employeeMessage st;
           isEmployeeSaved := isEmployeeSaved st; comment := comment st;
           selectedFile := selectedFile st; isSubmitting := isSubmitting st;
           expenseMessage := expenseMessage st; expenses := l;
           isLoadingHistory := isLoadingHistory st;
           historyError := historyError st |}) b
  | setIsLoadingHistory v =>
      with_ui (λ st,
        {| employee := employee st; employeeMessage := employeeMessage st;
           isEmployeeSaved := isEmployeeSaved st; comment := comment st;
           selectedFile := selectedFile st; isSubmitting := isSubmitting st;
           expenseMessage := expenseMessage st; expenses := expenses st;
           isLoadingHistory := v;
           historyError := historyError st |}) b
  | setHistoryError e =>
      with_ui (λ st,
        {| employee := employee st; employeeMessage := employeeMessage st;
           isEmployeeSaved := isEmployeeSaved st; comment := comment st;
           selectedFile := selectedFile st; isSubmitting := isSubmitting st;
           expenseMessage := expenseMessage st; expenses := expenses st;
           isLoadingHistory := isLoadingHistory st;
           historyError := e |}) b
  | localStorage_setItem key value =>
      {| ui := ui b; localStorage := <[key := value]> (localStorage b);
         timers := timers b; clock := clock b |}
  | setTimeout cb ms =>
      {| ui := ui b; localStorage := localStorage b;
         timers := schedule (clock b + ms) cb (timers b); clock := clock b |}
  | fetch _ _ _ | supabase_select _ _ _ _ _ _ | console_error | clearFileInput =>
      b
  end.

Definition run (effects : list Effect) (b : Browser) : Browser :=
  foldl perform b effects.

(** What a timer does when it fires. *)
Definition fire (cb : Callback) (answer : QueryResult) : list Effect :=
  match cb with
  | clearEmployeeMessage => [setEmployeeMessage None]
  | refreshHistory closure => fetchExpenseHistory closure answer
  end.

(** What the user and the clock do; the asynchronous ones come with the
    answer the environment gives.  A handler runs on the state of the
    last render and its effects are performed in one go.  The two effect
    hooks of the component (reading the stored identity when the page
    loads, fetching the history when the identity changes) are not among
    the events. *)
Inductive Event :=
| changeFullName (value : string)
| changeEmployeeId (value : string)
| changeComment (value : string)
| changeFile (file : option File)
| clickSave
| clickSubmit (answer : FetchResult)
| clickRefresh (answer : QueryResult)
| elapse (ms : nat) (answer : QueryResult).

Definition step (b : Browser) (ev : Event) : Browser :=
  match ev with
  | changeFullName v =>
      run [setEmployee {| fullName := v;
                          employeeId := employeeId (employee (ui b)) |}] b
  | changeEmployeeId v =>
      run [setEmployee {| fullName := fullName (employee (ui b));
                          employeeId := v |}] b
  | changeComment v => run [setComment v] b
  | changeFile f => run (handleFileChange f) b
  | clickSave => run (handleSaveEmployee (ui b)) b
  | clickSubmit answer =>
      if isSubmitting (ui b) then b
      else run (handleSubmitExpense (ui b) answer) b
  | clickRefresh answer =>
      if isEmployeeSaved (ui b) && negb (isLoadingHistory (ui b))
      then run (fetchExpenseHistory (ui b) answer) b
      else b
  | elapse ms answer =>
      let now := clock b + ms in
      let due := filter (λ t : nat * Callback, (t.1 <= now)%nat) (timers b) in
      let later := filter (λ t : nat * Callback, ¬ (t.1 <= now)%nat) (timers b) in
      run (due ≫= λ t : nat * Callback, fire t.2 answer)
        {| ui := ui b; localStorage := localStorage b;
           timers := later; clock := now |}
  end.

Definition steps (events : list Event) (b : Browser) : Browser :=
  foldl step b events.

(** The page as first rendered. *)
Definition initial : Browser :=
  {| ui := {| employee := {| fullName := EmptyString; employeeId := EmptyString |};
              employeeMessage := None; isEmployeeSaved := false;
              comment := EmptyString; selectedFile := None;
              isSubmitting := false; expenseMessage := None;
              expenses := []; isLoadingHistory := false;
              historyError := None |};
     localStorage := ∅; timers := []; clock := 0 |}.


(** *** Notions used to state properties of the handlers *)

(** The identity is saved, with a name and an id that are not empty. *)
Definition identity_saved (st : AppState) : Prop :=
  isEmployeeSaved st = true
  ∧ fullName (employee st) ≠ EmptyString
  ∧ employeeId (employee st) ≠ EmptyString.

(** The three preconditions of a submission hold. *)
Definition passes_validation (st : AppState) : Prop :=
  identity_saved st
  ∧ (selectedFile st = None → trim (comment st) ≠ EmptyString)
  ∧ (∀ f, selectedFile st = Some f → File.type f ∈ ALLOWED_FILE_TYPES).

(** A state with the given identity and form and nothing else. *)
Definition state_with (e : Employee) (saved : bool) (text : string)
    (file : option File) : AppState :=
  {| employee := e; employeeMessage := None; isEmployeeSaved := saved;
     comment := text; selectedFile := file; isSubmitting := false;
     expenseMessage := None; expenses := []; isLoadingHistory := false;
     historyError := None |}.

Definition browser_with (st : AppState) : Browser :=
  {| ui := st; localStorage := ∅; timers := []; clock := 0 |}.

(** The identity message after a list of effects, from the one shown
    before: the argument of the last [setEmployeeMessage]. *)
Definition shown_after (m : option Message) (effects : list Effect)
  : option Message :=
  foldl (λ m eff, match eff with setEmployeeMessage m' => m' | _ => m end)
    m effects.

(** ** Display *)

(** The CSS class of a status badge. *)
Definition getStatusClass (status : string) : string :=
  if String.eqb status "Approved" then "status-approved"
  else if String.eqb status "Rejected" then "status-rejected"
  else if String.eqb status "Manual Review" then "status-pending"
  else EmptyString.

Definition translateStatus (status : string) : string :=
  if String.eqb status "Approved" then "Одобрен"
  else if String.eqb status "Rejected" then "Отказан"
  else if String.eqb status "Manual Review" then "За преглед"
  else status.

(** What the history section of the page shows, one field per
    conditional block of the markup. *)
Record HistoryView := {
  identity_prompt : bool;          (* !isEmployeeSaved *)
  refresh_disabled : bool;         (* disabled={isLoadingHistory} *)
  summary : option Stats;          (* expenses.length > 0 *)
  loading_note : bool;             (* isLoadingHistory *)
  error_note : option string;      (* historyError *)
  empty_note : bool;  (* !isLoadingHistory && !historyError && length === 0 *)
  table : option (list Expense)    (* !isLoadingHistory && length > 0 *)
}.

Definition nonempty {A} (l : list A) : bool :=
  match l with
  | [] => false
  | _ :: _ => true
  end.

(** [amount.toFixed(2)] in [formatAmount]: only a number has [toFixed];
    on a string, [null] or [undefined] the call throws. *)
Definition formatAmount_throws (v : Value) : bool :=
  match v with
  | Num _ => false
  | Text | Obj | Undefined => true
  end.

(** The summary formats every value of [Object.entries(stats.byCategory)]. *)
Definition summary_throws (st : AppState) : bool :=
  existsb (λ p : string * Value, formatAmount_throws p.2)
    (Object_entries (byCategory (stats (expenses st)))).

(** The table formats [expense.amount] of every row, unguarded. *)
Definition table_throws (st : AppState) : bool :=
  existsb (λ exp, match Expense.amount exp with
                  | Some _ => false
                  | None => true
                  end)
    (expenses st).

(** A render either throws, and then nothing is shown, or shows the
    blocks whose conditions hold. *)
Inductive Rendered :=
| render_throws
| renders (v : HistoryView).

Definition history_view (st : AppState) : Rendered :=
  if negb (isEmployeeSaved st) then
    renders
      {| identity_prompt := true; refresh_disabled := false; summary := None;
         loading_note := false; error_note := None; empty_note := false;
         table := None |}
  else if nonempty (expenses st) && summary_throws st then render_throws
  else if negb (isLoadingHistory st) && nonempty (expenses st)
          && table_throws st then render_throws
  else
    let error_truthy :=
      match historyError st with
      | Some text => string_truthy text
      | None => false
      end in
    renders
      {| identity_prompt := false;
         refresh_disabled := isLoadingHistory st;
         summary := if nonempty (expenses st) then Some (stats (expenses st))
                    else None;
         loading_note := isLoadingHistory st;
         error_note := if error_truthy then historyError st else None;
         empty_note := negb (isLoadingHistory st) && negb error_truthy
                       && negb (nonempty (expenses st));
         table := if negb (isLoadingHistory st) && nonempty (expenses st)
                  then Some (expenses st) else None |}.

(** Rows the page can format: each has an amount, and no label names a
    property of [Object.prototype]. *)
Definition formattable (rows : list Expense) : Prop :=
  Forall (λ exp, is_Some (Expense.amount exp)
                 ∧ category_or_other exp ∉ Object_prototype) rows.

(** ** Effects by event *)

(** The effects an event performs, in order. *)
Definition performed (b : Browser) (ev : Event) : list Effect :=
  match ev with
  | changeFullName v =>
      [setEmployee {| fullName := v;
                      employeeId := employeeId (employee (ui b)) |}]
  | changeEmployeeId v =>
      [setEmployee {| fullName := fullName (employee (ui b));
                      employeeId := v |}]
  | changeComment v => [setComment v]
  | changeFile f => handleFileChange f
  | clickSave => handleSaveEmployee (ui b)
  | clickSubmit answer =>
      if isSubmitting (ui b) then []
      else handleSubmitExpense (ui b) answer
  | clickRefresh answer =>
      if isEmployeeSaved (ui b) && negb (isLoadingHistory (ui b))
      then fetchExpenseHistory (ui b) answer
      else []
  | elapse ms answer =>
      filter (λ t : nat * Callback, (t.1 <= clock b + ms)%nat) (timers b)
      ≫= λ t : nat * Callback, fire t.2 answer
  end.

(** The browser an event's effects start from: time has passed and the
    due timers have left the queue. *)
Definition before (b : Browser) (ev : Event) : Browser :=
  match ev with
  | elapse ms _ =>
      {| ui := ui b; localStorage := localStorage b;
         timers := filter (λ t : nat * Callback, ¬ (t.1 <= clock b + ms)%nat)
                     (timers b);
         clock := clock b + ms |}
  | _ => b
  end.

Definition is_elapse (ev : Event) : bool :=
  match ev with
  | elapse _ _ => true
  | _ => false
  end.

(** ** The history effect hook *)

(** What [fetchExpenseHistory] is memoised on. *)
Definition dependencies (st : AppState) : string * string * bool :=
  (fullName (employee st), employeeId (employee st), isEmployeeSaved st).

(** The hook [useEffect(..., [isEmployeeSaved, fetchExpenseHistory])]
    after a render: it runs when the render changed a dependency, and
    fetches when the identity is marked saved. *)
Definition historyEffect (previous current : AppState) (answer : QueryResult)
  : list Effect :=
  if bool_decide (dependencies previous = dependencies current) then []
  else if isEmployeeSaved current then fetchExpenseHistory current answer
  else [].

(** An event followed by the hook. *)
Definition step_then_effect (b : Browser) (ev : Event) (answer : QueryResult)
  : Browser :=
  let b' := step b ev in
  run (historyEffect (ui b) (ui b') answer) b'.

(** *** Notions used to state what the component never does *)

(** The effects the component can perform at all: the saved flag is only
    set, storage is written under one key, a file is selected only with
    an allowed type, the two requests and the two timers are the ones of
    the source. *)
Definition within_footprint (eff : Effect) : bool :=
  match eff with
  | setIsEmployeeSaved v => v
  | setSelectedFile (Some f) => bool_decide (File.type f ∈ ALLOWED_FILE_TYPES)
  | setHistoryError (Some text) => String.eqb text history_error_text
  | localStorage_setItem key _ => String.eqb key "techcorp_employee"
  | fetch url method _ =>
      String.eqb url N8N_WEBHOOK_URL && String.eqb method "POST"
  | supabase_select table columns eq_column _ order_column ascending =>
      String.eqb table "expenses" && String.eqb columns "*"
      && String.eqb eq_column "employee_id"
      && String.eqb order_column "created_at" && negb ascending
  | setTimeout clearEmployeeMessage ms => (ms =? 3000)%nat
  | setTimeout (refreshHistory _) ms => (ms =? 1000)%nat
  | _ => true
  end.

(** The effects of a history fetch. *)
Definition history_effect (eff : Effect) : bool :=
  match eff with
  | setIsLoadingHistory _ | setHistoryError _ | setExpenses _
  | supabase_select _ _ _ _ _ _ | console_error => true
  | _ => false
  end.

(** The events that fetch the history or let timers fire. *)
Definition is_history_event (ev : Event) : bool :=
  match ev with
  | clickRefresh _ | elapse _ _ => true
  | _ => false
  end.

(** A submission that fails: the request throws or the response is not
    2xx. *)
Definition submission_fails (answer : FetchResult) : Prop :=
  match answer with
  | fetch_rejects _ => True
  | fetch_resolves r => Response.ok r = false
  end.

(** A history query that fails: it throws or answers with an error. *)
Definition query_fails (answer : QueryResult) : Prop :=
  match answer with
  | query_rejects _ | query_resolves _ (Some _) => True
  | query_resolves _ None => False
  end.

(** What the breakdown holds under a key: a number, or a string when
    the key names a property of [Object.prototype]. *)
Definition well_typed_entry (p : string * Value) : Prop :=
  if bool_decide (p.1 ∈ Object_prototype) then p.2 = Text
  else ∃ x, p.2 = Num x.

(** The events that change what the history hook depends on. *)
Definition changes_identity (b : Browser) (ev : Event) : bool :=
  match ev with
  | changeFullName _ | changeEmployeeId _ => true
  | clickSave => negb (isEmployeeSaved (ui b))
  | _ => false
  end.

(** The states the browser can reach from [b]: by events, each followed
    or not by the history hook. *)
Inductive reachable_from (b : Browser) : Browser → Prop :=
| reach_start : reachable_from b b
| reach_event b' ev : reachable_from b b' → reachable_from b (step b' ev)
| reach_effect b' ev answer :
    reachable_from b b' → reachable_from b (step_then_effect b' ev answer).

(** ** The statistics on the heap *)

(** [calculateStats] once more, with the array of expenses, its rows and
    the objects the function creates placed in a heap, so that what the
    function reads, creates and writes is explicit.  A location holds a
    row, an array of rows or an object literal; an operation applied to a
    location of another kind has no result (the types of the source
    exclude it). *)
Module Heap.

Abbreviation loc := positive.

Inductive cell :=
| Row (exp : Expense)
| Arr (items : list loc)
| Plain (o : Object).

Definition M (A : Type) : Type := gmap loc cell → option (A * gmap loc cell).

#[global] Instance M_ret : MRet M := λ A a h, Some (a, h).

#[global] Instance M_bind : MBind M :=
  λ A B k m h,
    match m h with
    | Some (a, h') => k a h'
    | None => None
    end.

(** A new object or array: a location not in use. *)
Definition alloc (c : cell) : M loc :=
  λ h, let l := fresh (dom h) in Some (l, <[l := c]> h).

(** [a.length] *)
Definition array_length (a : loc) : M nat :=
  λ h, match h !! a with
       | Some (Arr items) => Some (length items, h)
       | _ => None
       end.

(** [a[k]], when the index is present *)
Definition array_get (a : loc) (k : nat) : M (option loc) :=
  λ h, match h !! a with
       | Some (Arr items) => Some (items !! k, h)
       | _ => None
       end.

(** [exp.amount || 0], [exp.status], [exp.category || 'Други']: a read
    of a property of a row, through [view]. *)
Definition read {A} (exp : loc) (view : Expense → A) : M A :=
  λ h, match h !! exp with
       | Some (Row e) => Some (view e, h)
       | _ => None
       end.

(** [o[k]] *)
Definition get_property (o : loc) (k : string) : M Value :=
  λ h, match h !! o with
       | Some (Plain props) => Some (JS.get props k, h)
       | _ => None
       end.

(** [o[k] = v] *)
Definition set_property (o : loc) (k : string) (v : Value) : M unit :=
  λ h, match h !! o with
       | Some (Plain props) => Some (tt, <[o := Plain (JS.set props k v)]> h)
       | _ => None
       end.

(** The loop of the array methods: the indices below the length read at
    the start, each element read when its turn comes. *)
Fixpoint each_index {B} (body : B → nat → M B) (acc : B) (ks : list nat)
  : M B :=
  match ks with
  | [] => mret acc
  | k :: ks' => acc' ← body acc k; each_index body acc' ks'
  end.

(** [a.reduce(f, init)] *)
Definition reduce {B} (a : loc) (f : B → loc → M B) (init : B) : M B :=
  len ← array_length a;
  each_index
    (λ acc k, x ← array_get a k;
              match x with
              | Some exp => f acc exp
              | None => mret acc
              end)
    init (seq 0 len).

(** [a.filter(p)]: the elements kept go to a new array. *)
Definition filter (a : loc) (p : loc → M bool) : M loc :=
  len ← array_length a;
  kept ← each_index
           (λ kept k, x ← array_get a k;
                      match x with
                      | Some exp =>
                          keep ← p exp;
                          mret (if keep : bool then kept ++ [exp] else kept)
                      | None => mret kept
                      end)
           [] (seq 0 len);
  alloc (Arr kept).

(** [a.forEach(f)] *)
Definition forEach (a : loc) (f : loc → M unit) : M unit :=
  len ← array_length a;
  each_index
    (λ _ k, x ← array_get a k;
            match x with
            | Some exp => f exp
            | None => mret tt
            end)
    tt (seq 0 len).

(** The object [calculateStats] returns, [byCategory] by its location. *)
Record Stats := {
  total : number;
  approved : nat;
  rejected : nat;
  pending : nat;
  byCategory : loc
}.

Definition calculateStats (expenses : loc) : M Stats :=
  total ← reduce expenses
            (λ sum exp, amount ← read exp amount_or_zero;
                        mret (sum + amount)%float)
            0%float;
  kept ← filter expenses
           (λ exp, status ← read exp Expense.status;
                   mret (bool_decide (status = "Approved")));
  approved ← array_length kept;
  kept ← filter expenses
           (λ exp, status ← read exp Expense.status;
                   mret (bool_decide (status = "Rejected")));
  rejected ← array_length kept;
  kept ← filter expenses
           (λ exp, status ← read exp Expense.status;
                   mret (bool_decide (status = "Manual Review")));
  pending ← array_length kept;
  byCategory ← alloc (Plain []);
  forEach expenses
    (λ exp, cat ← read exp category_or_other;
            old ← get_property byCategory cat;
            amount ← read exp amount_or_zero;
            set_property byCategory cat (plus (or old (Num 0)) amount));;
  mret {| total := total; approved := approved; rejected := rejected;
          pending := pending; byCategory := byCategory |}.

(** The heap holds, at [a], an array whose elements are the rows. *)
Definition holds (h : gmap loc cell) (a : loc) (rows : list Expense) : Prop :=
  ∃ items, h !! a = Some (Arr items)
           ∧ Forall2 (λ l exp, h !! l = Some (Row exp)) items rows.

End Heap.

(** A heap with an array of three entries, two of them the same row. *)
Definition sample_heap : gmap Heap.loc Heap.cell :=
  {[ 1%positive := Heap.Arr [2%positive; 3%positive; 2%positive];
     2%positive := Heap.Row (row (Some 10%float) "Approved" (Some "Food"));
     3%positive := Heap.Row (row (Some 5%float) "Rejected" None) ]}.

(** * Properties *)

(** ** Statistics *)

Lemma stats_unfold expenses :
  stats expenses =
  {| total := foldl (λ sum exp, (sum + amount_or_zero exp)%float) 0%float expenses;
     approved := length (filter (λ exp, Expense.status exp = "Approved") expenses);
     rejected := length (filter (λ exp, Expense.status exp = "Rejected") expenses);
     pending := length (filter (λ exp, Expense.status exp = "Manual Review") expenses);
     byCategory := foldl group [] expenses |}.
Proof. reflexivity. Qed.

(** C1 (as stated): on the three-row list the statistics are not
    [total = 22], [approved = rejected = pending = 1] with a breakdown
    [{Food: 15, Other: 7}]: the breakdown has no key ["Other"]. *)
Lemma sample_breakdown_has_no_Other :
  let s := stats [ row (Some 10%float) "Approved" (Some "Food");
                   row (Some 5%float) "Rejected" (Some "Food");
                   row (Some 7%float) "Manual Review" None ] in
  ¬ (total s = 22%float ∧ approved s = 1 ∧ rejected s = 1 ∧ pending s = 1
     ∧ Object_entries (byCategory s) = [("Food", Num 15); ("Other", Num 7)])
  ∧ own (byCategory s) "Other" = None.
Proof.
  split; [|reflexivity].
  intros (_ & _ & _ & _ & H). vm_compute in H.
  apply (f_equal (fmap fst)) in H. discriminate H.
Qed.

(** C1 (amended): on a list of three rows with amounts 10, 5, 7, statuses
    Approved, Rejected, Manual Review and categories Food, Food, null,
    [total = 22], [approved = rejected = pending = 1] and the breakdown is
    [{Food: 15, Други: 7}]: the row without a category is summed under the
    label ["Други"]. *)
Theorem sample_stats (e1 e2 e3 : Expense) :
  Expense.amount e1 = Some 10%float → Expense.status e1 = "Approved" →
  Expense.category e1 = Some "Food" →
  Expense.amount e2 = Some 5%float → Expense.status e2 = "Rejected" →
  Expense.category e2 = Some "Food" →
  Expense.amount e3 = Some 7%float → Expense.status e3 = "Manual Review" →
  Expense.category e3 = None →
  let s := stats [e1; e2; e3] in
  total s = 22%float ∧ approved s = 1 ∧ rejected s = 1 ∧ pending s = 1
  ∧ Object_entries (byCategory s) = [("Food", Num 15); ("Други", Num 7)].
Proof.
  intros A1 S1 C1 A2 S2 C2 A3 S3 C3 s. subst s. rewrite stats_unfold.
  cbn [total approved rejected pending byCategory].
  repeat split.
  - cbn [foldl]. unfold amount_or_zero. rewrite A1, A2, A3. reflexivity.
  - rewrite !filter_cons, filter_nil, S1, S2, S3. reflexivity.
  - rewrite !filter_cons, filter_nil, S1, S2, S3. reflexivity.
  - rewrite !filter_cons, filter_nil, S1, S2, S3. reflexivity.
  - cbn [foldl]. unfold group, category_or_other, amount_or_zero.
    rewrite A1, A2, A3, C1, C2, C3. reflexivity.
Qed.

Lemma sample_stats_witness :
  let s := stats [ row (Some 10%float) "Approved" (Some "Food");
                   row (Some 5%float) "Rejected" (Some "Food");
                   row (Some 7%float) "Manual Review" None ] in
  total s = 22%float ∧ approved s = 1 ∧ rejected s = 1 ∧ pending s = 1
  ∧ Object_entries (byCategory s) = [("Food", Num 15); ("Други", Num 7)].
Proof. apply sample_stats; reflexivity. Defined.

(** *** The statistics on the heap *)

Lemma each_index_invariant {B} (I : nat → B → gmap Heap.loc Heap.cell → Prop)
    (body : B → nat → Heap.M B) n start acc g :
  (∀ k acc g, (start <= k < start + n)%nat → I k acc g →
     ∃ acc' g', body acc k g = Some (acc', g') ∧ I (S k) acc' g') →
  I start acc g →
  ∃ acc' g', Heap.each_index body acc (seq start n) g = Some (acc', g')
             ∧ I (start + n)%nat acc' g'.
Proof.
  revert start acc g. induction n as [|n IH]; intros start acc g Hbody HI.
  - exists acc, g. split; [done|]. by rewrite Nat.add_0_r.
  - destruct (Hbody start acc g) as (acc1 & g1 & Hrun & HI1); [lia|done|].
    destruct (IH (S start) acc1 g1) as (acc2 & g2 & Hrest & HI2); [|done|].
    { intros k acc' g' Hk. apply Hbody. lia. }
    exists acc2, g2. split.
    + cbn [seq Heap.each_index]. unfold mbind, Heap.M_bind. by rewrite Hrun.
    + by replace (start + S n)%nat with (S start + n)%nat by lia.
Qed.

Lemma holds_weaken (h g : gmap Heap.loc Heap.cell) a rows : Heap.holds h a rows → h ⊆ g → Heap.holds g a rows.
Proof.
  intros (items & Ha & Hrows) Hsub. exists items. split.
  - exact (lookup_weaken _ _ _ _ Ha Hsub).
  - eapply Forall2_impl; [done|]. intros l exp Hl.
    exact (lookup_weaken _ _ _ _ Hl Hsub).
Qed.

Lemma holds_element (g : gmap Heap.loc Heap.cell) a items rows k exp :
  g !! a = Some (Heap.Arr items) →
  Forall2 (λ l exp, g !! l = Some (Heap.Row exp)) items rows →
  rows !! k = Some exp →
  ∃ l, items !! k = Some l ∧ g !! l = Some (Heap.Row exp).
Proof.
  intros _ Hrows Hk.
  destruct (Forall2_lookup_r _ _ _ _ _ Hrows Hk) as (l & Hl & Hrow). eauto.
Qed.

Lemma reduce_rows {A B} (g : gmap Heap.loc Heap.cell) a rows (view : Expense → A) (F : B → A → B) init :
  Heap.holds g a rows →
  Heap.reduce a (λ acc exp, x ← Heap.read exp view; mret (F acc x)) init g
  = Some (foldl (λ acc exp, F acc (view exp)) init rows, g).
Proof.
  intros (items & Ha & Hrows).
  pose proof (Forall2_length _ _ _ Hrows) as Hlen.
  unfold Heap.reduce, mbind, Heap.M_bind at 1, Heap.array_length. rewrite Ha.
  lazymatch goal with
  | |- context [Heap.each_index ?b ?s (seq 0 ?n)] =>
      pose proof (each_index_invariant
                    (λ k acc g', g' = g
                                 ∧ acc = foldl (λ acc exp, F acc (view exp)) init
                                           (take k rows))
                    b n 0 s g) as Hloop
  end.
  cbn beta in Hloop.
  destruct Hloop as (acc & g' & Hrun & Hg & Hacc); [|split; reflexivity|].
  - intros k acc g' Hk [-> ->].
    destruct (lookup_lt_is_Some_2 rows k) as [exp Hexp]; [lia|].
    destruct (holds_element g a items rows k exp) as (l & Hl & Hrow); [done..|].
    eexists _, g. split.
    + unfold mbind, Heap.M_bind, Heap.array_get, Heap.read, mret, Heap.M_ret.
      rewrite Ha, Hl, Hrow. reflexivity.
    + split; [done|]. erewrite take_S_r by done. by rewrite foldl_app.
  - rewrite Hrun. subst g'. rewrite Hacc. cbn [Nat.add].
    by rewrite Hlen, firstn_all.
Qed.

Lemma filter_rows {A} (g : gmap Heap.loc Heap.cell) a rows (view : Expense → A) (p : A → bool) :
  Heap.holds g a rows →
  ∃ kept,
    Heap.filter a (λ exp, x ← Heap.read exp view; mret (p x)) g
    = Some (fresh (dom g), <[fresh (dom g) := Heap.Arr kept]> g)
    ∧ length kept = length (filter (λ exp, p (view exp) = true) rows).
Proof.
  intros (items & Ha & Hrows).
  pose proof (Forall2_length _ _ _ Hrows) as Hlen.
  unfold Heap.filter, mbind, Heap.M_bind at 1, Heap.array_length. rewrite Ha.
  lazymatch goal with
  | |- context [Heap.each_index ?b ?s (seq 0 ?n)] =>
      pose proof (each_index_invariant
                    (λ k (kept : list Heap.loc) g',
                       g' = g
                       ∧ length kept
                         = length (filter (λ exp, p (view exp) = true)
                                     (take k rows)))
                    b n 0 s g) as Hloop
  end.
  cbn beta in Hloop.
  destruct Hloop as (kept & g' & Hrun & Hg & Hkept); [|split; reflexivity|].
  - intros k kept g' Hk [-> Hkept].
    destruct (lookup_lt_is_Some_2 rows k) as [exp Hexp]; [lia|].
    destruct (holds_element g a items rows k exp) as (l & Hl & Hrow); [done..|].
    eexists _, g. split.
    + unfold mbind, Heap.M_bind, Heap.array_get, Heap.read, mret, Heap.M_ret.
      rewrite Ha, Hl, Hrow. reflexivity.
    + split; [done|]. erewrite take_S_r by done.
      rewrite filter_app, length_app, filter_cons, filter_nil.
      destruct (p (view exp)) eqn:Hp.
      * rewrite decide_True by done. rewrite length_app. cbn. lia.
      * rewrite decide_False by congruence. cbn. lia.
  - exists kept. unfold Heap.M_bind at 1. rewrite Hrun. subst g'.
    split; [done|]. rewrite Hkept. cbn [Nat.add]. by rewrite Hlen, firstn_all.
Qed.

Lemma forEach_rows (g : gmap Heap.loc Heap.cell) a rows o props :
  Heap.holds g a rows →
  g !! o = Some (Heap.Plain props) →
  Heap.forEach a
    (λ exp, cat ← Heap.read exp category_or_other;
            old ← Heap.get_property o cat;
            amount ← Heap.read exp amount_or_zero;
            Heap.set_property o cat (plus (or old (Num 0)) amount)) g
  = Some (tt, <[o := Heap.Plain (foldl group props rows)]> g).
Proof.
  intros (items & Ha & Hrows) Ho.
  pose proof (Forall2_length _ _ _ Hrows) as Hlen.
  assert (Hao : a ≠ o) by congruence.
  unfold Heap.forEach, mbind, Heap.M_bind at 1, Heap.array_length. rewrite Ha.
  lazymatch goal with
  | |- context [Heap.each_index ?b ?s (seq 0 ?n)] =>
      pose proof (each_index_invariant
                    (λ k (_ : unit) g',
                       g' = <[o := Heap.Plain (foldl group props (take k rows))]> g)
                    b n 0 s g) as Hloop
  end.
  cbn beta in Hloop.
  destruct Hloop as ([] & g' & Hrun & Hg); [|by rewrite insert_id|].
  - intros k [] g' Hk ->.
    destruct (lookup_lt_is_Some_2 rows k) as [exp Hexp]; [lia|].
    destruct (holds_element g a items rows k exp) as (l & Hl & Hrow); [done..|].
    assert (Hlo : l ≠ o) by congruence.
    eexists tt, _. split.
    + unfold mbind, Heap.M_bind, Heap.array_get, Heap.read, Heap.get_property,
        Heap.set_property, mret, Heap.M_ret.
      rewrite lookup_insert_ne, Ha, Hl by done.
      rewrite !lookup_insert_ne, Hrow by done. rewrite lookup_insert_eq.
      rewrite lookup_insert_ne, Hrow by done. rewrite lookup_insert_eq.
      reflexivity.
    + rewrite insert_insert_eq. erewrite take_S_r by done.
      by rewrite foldl_app.
  - rewrite Hrun, Hg. cbn [Nat.add]. by rewrite Hlen, firstn_all.
Qed.

Lemma bind_run {A B} (m : Heap.M A) (k : A → Heap.M B) g x g' :
  m g = Some (x, g') → (m ≫= k) g = k x g'.
Proof. unfold mbind, Heap.M_bind. by intros ->. Qed.

Lemma array_length_run (g : gmap Heap.loc Heap.cell) l items :
  g !! l = Some (Heap.Arr items) → Heap.array_length l g = Some (length items, g).
Proof. unfold Heap.array_length. by intros ->. Qed.

Lemma fresh_lookup (g : gmap Heap.loc Heap.cell) : g !! fresh (dom g) = None.
Proof. apply not_elem_of_dom, is_fresh. Qed.

Lemma holds_alloc (g : gmap Heap.loc Heap.cell) a rows c :
  Heap.holds g a rows → Heap.holds (<[fresh (dom g) := c]> g) a rows.
Proof.
  intros Hholds. eapply holds_weaken; [done|].
  apply insert_subseteq, fresh_lookup.
Qed.

Lemma filter_bool_decide {A} (P : A → Prop) `{∀ x, Decision (P x)} (l : list A) :
  filter (λ x, bool_decide (P x) = true) l = filter P l.
Proof. apply list_filter_iff. intros x. apply bool_decide_eq_true. Qed.

(** What a call returns and leaves, on any heap that holds the rows. *)
Lemma calculateStats_run (g : gmap Heap.loc Heap.cell) a rows :
  Heap.holds g a rows →
  ∃ s g',
    Heap.calculateStats a g = Some (s, g')
    ∧ g ⊆ g'
    ∧ Heap.total s = total (stats rows)
    ∧ Heap.approved s = approved (stats rows)
    ∧ Heap.rejected s = rejected (stats rows)
    ∧ Heap.pending s = pending (stats rows)
    ∧ g' !! Heap.byCategory s = Some (Heap.Plain (byCategory (stats rows))).
Proof.
  intros Hg. unfold Heap.calculateStats.
  erewrite bind_run by (by apply reduce_rows).
  destruct (filter_rows g a rows Expense.status
              (λ status, bool_decide (status = "Approved")) Hg)
    as (kept1 & Hrun1 & Hlen1).
  erewrite bind_run by exact Hrun1.
  set (g1 := <[fresh (dom g) := Heap.Arr kept1]> g).
  assert (Hg1 : Heap.holds g1 a rows) by by apply holds_alloc.
  erewrite bind_run by (apply array_length_run, lookup_insert_eq).
  destruct (filter_rows g1 a rows Expense.status
              (λ status, bool_decide (status = "Rejected")) Hg1)
    as (kept2 & Hrun2 & Hlen2).
  erewrite bind_run by exact Hrun2.
  set (g2 := <[fresh (dom g1) := Heap.Arr kept2]> g1).
  assert (Hg2 : Heap.holds g2 a rows) by by apply holds_alloc.
  erewrite bind_run by (apply array_length_run, lookup_insert_eq).
  destruct (filter_rows g2 a rows Expense.status
              (λ status, bool_decide (status = "Manual Review")) Hg2)
    as (kept3 & Hrun3 & Hlen3).
  erewrite bind_run by exact Hrun3.
  set (g3 := <[fresh (dom g2) := Heap.Arr kept3]> g2).
  assert (Hg3 : Heap.holds g3 a rows) by by apply holds_alloc.
  erewrite bind_run by (apply array_length_run, lookup_insert_eq).
  erewrite bind_run by reflexivity.
  set (o := fresh (dom g3)).
  set (g4 := <[o := Heap.Plain []]> g3).
  assert (Hg4 : Heap.holds g4 a rows) by by apply holds_alloc.
  erewrite bind_run by (apply forEach_rows; [exact Hg4 | apply lookup_insert_eq]).
  eexists _, _. split; [reflexivity|]. cbn [Heap.total Heap.approved
    Heap.rejected Heap.pending Heap.byCategory].
  rewrite stats_unfold. cbn [total approved rejected pending byCategory].
  split; [|split; [done|]].
  - subst g4. rewrite insert_insert_eq.
    etrans; [apply (insert_subseteq g), fresh_lookup|].
    etrans; [apply (insert_subseteq g1), fresh_lookup|].
    etrans; [apply (insert_subseteq g2), fresh_lookup|].
    apply insert_subseteq, fresh_lookup.
  - rewrite Hlen1, Hlen2, Hlen3.
    rewrite !(filter_bool_decide (λ exp, Expense.status exp = _)).
    repeat split. apply lookup_insert_eq.
Qed.

(** C7: on a heap that holds the array of expenses and its rows, a call
    of [calculateStats] succeeds and leaves every location of that heap
    as it was (the array and the rows among them): it writes only to the
    arrays and the object it creates.  Its results are the statistics of
    the rows, and a second call, on the heap the first one left, returns
    the same numbers and a breakdown with the same content, again without
    touching what was there. *)
Theorem calculateStats_leaves_input (h : gmap Heap.loc Heap.cell)
    (a : Heap.loc) (rows : list Expense) :
  Heap.holds h a rows →
  ∃ first h' second h'',
    Heap.calculateStats a h = Some (first, h')
    ∧ Heap.calculateStats a h' = Some (second, h'')
    ∧ h ⊆ h' ∧ h' ⊆ h''
    ∧ Heap.holds h'' a rows
    ∧ Heap.total first = total (stats rows)
    ∧ Heap.approved first = approved (stats rows)
    ∧ Heap.rejected first = rejected (stats rows)
    ∧ Heap.pending first = pending (stats rows)
    ∧ h' !! Heap.byCategory first = Some (Heap.Plain (byCategory (stats rows)))
    ∧ Heap.total second = Heap.total first
    ∧ Heap.approved second = Heap.approved first
    ∧ Heap.rejected second = Heap.rejected first
    ∧ Heap.pending second = Heap.pending first
    ∧ h'' !! Heap.byCategory second = h' !! Heap.byCategory first.
Proof.
  intros Hh.
  destruct (calculateStats_run h a rows Hh)
    as (first & h' & Hrun & Hsub & Ht & Ha & Hr & Hp & Hb).
  assert (Hh' : Heap.holds h' a rows) by by eapply holds_weaken.
  destruct (calculateStats_run h' a rows Hh')
    as (second & h'' & Hrun' & Hsub' & Ht' & Ha' & Hr' & Hp' & Hb').
  exists first, h', second, h''.
  repeat split; try done; try congruence.
  by eapply holds_weaken.
Qed.

Lemma calculateStats_leaves_input_witness :
  ∃ first h',
    Heap.calculateStats 1%positive sample_heap = Some (first, h')
    ∧ sample_heap ⊆ h'
    ∧ Heap.total first = 25%float
    ∧ h' !! Heap.byCategory first
      = Some (Heap.Plain [("Food", Num 20); ("Други", Num 5)]).
Proof.
  destruct (calculateStats_leaves_input sample_heap 1%positive
              [ row (Some 10%float) "Approved" (Some "Food");
                row (Some 5%float) "Rejected" None;
                row (Some 10%float) "Approved" (Some "Food") ])
    as (first & h' & _ & _ & Hrun & _ & Hsub & _ & _ & Ht & _ & _ & _ & Hb & _).
  - eexists. split; [reflexivity|]. repeat constructor.
  - exists first, h'. repeat split; assumption.
Defined.

(** *** Keys of the breakdown *)

Lemma filter_all {A} (P : A → Prop) `{∀ x, Decision (P x)} (l : list A) :
  Forall P l → filter P l = l.
Proof.
  induction 1 as [|x l Hx _ IH]; [done|].
  rewrite filter_cons_True by done. by rewrite IH.
Qed.

Lemma own_None o k : own o k = None ↔ k ∉ o.*1.
Proof.
  induction o as [|[k' v] o IH]; cbn.
  - split; [intros _; apply not_elem_of_nil | done].
  - destruct (String.eqb_spec k' k) as [->|Hne].
    + split; [done | intros []; left].
    + rewrite IH, not_elem_of_cons. naive_solver.
Qed.

Lemma define_keys_old o k v : k ∈ o.*1 → (define o k v).*1 = o.*1.
Proof.
  induction o as [|[k' v'] o IH]; cbn.
  - intros H. by apply elem_of_nil in H.
  - destruct (String.eqb_spec k' k) as [->|Hne]; [done|].
    intros [?|?]%elem_of_cons; [congruence|]. cbn. by rewrite IH.
Qed.

Lemma define_keys_new o k v : k ∉ o.*1 → (define o k v).*1 = o.*1 ++ [k].
Proof.
  induction o as [|[k' v'] o IH]; cbn; [done|].
  intros [? ?]%not_elem_of_cons.
  destruct (String.eqb_spec k' k) as [->|Hne]; [done|].
  cbn. by rewrite IH.
Qed.

Lemma group_keys o exp :
  category_or_other exp ≠ "__proto__" →
  (group o exp).*1 =
  if decide (category_or_other exp ∈ o.*1) then o.*1
  else o.*1 ++ [category_or_other exp].
Proof.
  intros Hne. unfold group, JS.set.
  destruct (String.eqb_spec (category_or_other exp) "__proto__"); [done|].
  case_decide; [by apply define_keys_old | by apply define_keys_new].
Qed.

Lemma first_seen_elem_of c labels : c ∈ first_seen labels → c ∈ labels.
Proof.
  induction labels as [|c' labels IH]; cbn; [done|].
  rewrite !elem_of_cons, list_elem_of_filter. naive_solver.
Qed.

Lemma foldl_group_keys expenses o :
  Forall (λ exp, category_or_other exp ≠ "__proto__") expenses →
  (foldl group o expenses).*1 =
  o.*1 ++ filter (λ c, c ∉ o.*1) (first_seen (category_or_other <$> expenses)).
Proof.
  revert o. induction expenses as [|exp expenses IH]; intros o Hall.
  - cbn. by rewrite app_nil_r.
  - apply Forall_cons in Hall as [Hexp Hall]. cbn [foldl fmap list_fmap first_seen].
    rewrite IH, group_keys by done. rewrite filter_cons.
    set (c := category_or_other exp). set (rest := first_seen _).
    destruct (decide (c ∈ o.*1)) as [Hin|Hout].
    + rewrite decide_False by naive_solver.
      f_equal. rewrite list_filter_filter. apply list_filter_iff.
      intros c'. naive_solver.
    + rewrite decide_True by done. rewrite <- app_assoc. cbn. do 2 f_equal.
      rewrite list_filter_filter. apply list_filter_iff.
      intros c'. rewrite elem_of_app, list_elem_of_singleton. naive_solver.
Qed.

Lemma Object_entries_no_index o :
  Forall (λ p, array_index p.1 = None) o → Object_entries o = o.
Proof.
  intros Hall. unfold Object_entries.
  assert (omap indexed o = []) as ->.
  { induction Hall as [|p o Hp _ IH]; [done|].
    cbn. unfold indexed at 1. by rewrite Hp. }
  change (merge_sort index_le []) with (@nil (N * (string * Value))).
  rewrite fmap_nil, app_nil_l. by apply filter_all.
Qed.

(** C6 (as stated): with the labels ["Food"] then ["1"], the breakdown
    lists ["1"] first, which is not the order of first occurrence; and a
    row labelled ["__proto__"] adds no key at all. *)
Lemma keys_not_in_first_seen_order :
  let expenses := [ row (Some 1%float) "Approved" (Some "Food");
                    row (Some 2%float) "Approved" (Some "1") ] in
  let hidden := [ row (Some 1%float) "Approved" (Some "__proto__");
                  row (Some 2%float) "Approved" (Some "Food") ] in
  (Object_keys (byCategory (stats expenses)) = ["1"; "Food"]
   ∧ first_seen (category_or_other <$> expenses) = ["Food"; "1"]
   ∧ Object_keys (byCategory (stats expenses))
     ≠ first_seen (category_or_other <$> expenses))
  ∧ (Object_keys (byCategory (stats hidden)) = ["Food"]
     ∧ Object_keys (byCategory (stats hidden))
       ≠ first_seen (category_or_other <$> hidden)).
Proof. vm_compute. repeat split; discriminate. Qed.

(** C6 (amended): for every expense list in which no label (the category,
    or ["Други"] for an empty or absent one) is an array index or
    ["__proto__"], the breakdown lists its keys in the order in which the
    labels first occur in the list. *)
Theorem byCategory_keys_first_seen (expenses : list Expense) :
  Forall (λ exp, array_index (category_or_other exp) = None
                 ∧ category_or_other exp ≠ "__proto__") expenses →
  Object_keys (byCategory (stats expenses))
  = first_seen (category_or_other <$> expenses).
Proof.
  intros Hall. rewrite stats_unfold. cbn [byCategory].
  assert (Hkeys : (foldl group [] expenses).*1
                  = first_seen (category_or_other <$> expenses)).
  { rewrite foldl_group_keys by (eapply Forall_impl; [done|naive_solver]).
    cbn. apply filter_all, Forall_forall. intros c _. apply not_elem_of_nil. }
  unfold Object_keys. rewrite Object_entries_no_index; [done|].
  apply Forall_forall. intros [k v] Hin. cbn.
  assert (k ∈ (foldl group [] expenses).*1) as Hk by (apply list_elem_of_fmap; by exists (k, v)).
  rewrite Hkeys in Hk. apply first_seen_elem_of, list_elem_of_fmap in Hk as (exp & -> & Hexp).
  rewrite Forall_forall in Hall. by apply Hall.
Qed.

Lemma byCategory_keys_first_seen_witness :
  Object_keys (byCategory (stats
    [ row (Some 10%float) "Approved" (Some "Food");
      row (Some 4%float) "Rejected" (Some "Travel");
      row (Some 5%float) "Rejected" (Some "Food");
      row (Some 7%float) "Manual Review" None ]))
  = ["Food"; "Travel"; "Други"].
Proof.
  apply (byCategory_keys_first_seen
    [ row (Some 10%float) "Approved" (Some "Food");
      row (Some 4%float) "Rejected" (Some "Travel");
      row (Some 5%float) "Rejected" (Some "Food");
      row (Some 7%float) "Manual Review" None ]).
  repeat constructor; discriminate.
Defined.

(** *** Total and breakdown *)

Lemma exact_add_true x y :
  exact_add (x, y) = true →
  ∃ a b, exact_value x = Some a ∧ exact_value y = Some b
         ∧ exact_value (x + y)%float = Some (a + b)%Z.
Proof.
  unfold exact_add. cbn [fst snd].
  destruct (exact_value x) as [a|]; [|done].
  destruct (exact_value y) as [b|]; [|done].
  destruct (exact_value (x + y)%float) as [c|]; [|done].
  intros ->%bool_decide_eq_true. eauto.
Qed.

Lemma falsy_exact_value x a :
  number_truthy x = false → exact_value x = Some a → a = 0%Z.
Proof.
  unfold number_truthy, exact_value.
  destruct (Prim2SF x); intros; simplify_eq; done.
Qed.

Lemma exact_sum_cons v vs t :
  exact_sum (v :: vs) = Some t ↔
  ∃ x a s, v = Num x ∧ exact_value x = Some a ∧ exact_sum vs = Some s
           ∧ t = (a + s)%Z.
Proof.
  cbn. split.
  - destruct v as [x| | |]; try done.
    destruct (exact_value x) as [a|] eqn:Ha; [|done].
    destruct (exact_sum vs) as [s|]; [|done].
    intros [= <-]. by exists x, a, s.
  - intros (x & a & s & -> & -> & -> & ->). done.
Qed.

Lemma exact_sum_Permutation vs ws : vs ≡ₚ ws → exact_sum vs = exact_sum ws.
Proof.
  induction 1 as [|v vs ws _ IH|v w vs|vs ws us _ IH1 _ IH2].
  - done.
  - cbn. by rewrite IH.
  - cbn. destruct v as [x| | |], w as [y| | |]; try done.
    + destruct (exact_value x), (exact_value y), (exact_sum vs); try done.
      f_equal. lia.
    + by destruct (exact_value x), (exact_sum vs).
    + by destruct (exact_value x), (exact_sum vs).
    + by destruct (exact_value x), (exact_sum vs).
    + by destruct (exact_value y), (exact_sum vs).
    + by destruct (exact_value y), (exact_sum vs).
    + by destruct (exact_value y), (exact_sum vs).
  - congruence.
Qed.

Lemma Object_entries_Permutation o : Object_entries o ≡ₚ o.
Proof.
  unfold Object_entries. rewrite merge_sort_Permutation.
  rewrite <- (filter_app_complement (λ p, array_index p.1 = None) o) at 3.
  rewrite (comm (++)). apply Permutation_app; [done|].
  enough ((omap indexed o).*2 = filter (λ p, ¬ array_index p.1 = None) o)
    as -> by done.
  induction o as [|p o IH]; [done|].
  cbn [omap list_omap]. unfold indexed at 1.
  destruct (array_index p.1) as [n|] eqn:Hp.
  - rewrite filter_cons_True by (rewrite Hp; done). cbn. by rewrite IH.
  - rewrite filter_cons_False by (rewrite Hp; naive_solver). done.
Qed.

Lemma own_exact o k v s :
  own o k = Some v → exact_sum o.*2 = Some s →
  ∃ x a, v = Num x ∧ exact_value x = Some a.
Proof.
  revert s. induction o as [|[k' v'] o IH]; intros s; cbn [own]; [done|].
  rewrite fmap_cons. intros Hown (x & a & s' & Hv & Ha & Hs & _)%exact_sum_cons.
  cbn in Hv. destruct (String.eqb k' k); [|by eapply IH].
  simplify_eq. eauto.
Qed.

Lemma define_exact_old o k x a y b s :
  own o k = Some (Num x) → exact_value x = Some a → exact_value y = Some b →
  exact_sum o.*2 = Some s →
  exact_sum (define o k (Num y)).*2 = Some (s - a + b)%Z.
Proof.
  intros Hown Ha Hb. revert s Hown.
  induction o as [|[k' v'] o IH]; intros s; cbn [own define]; [done|].
  rewrite fmap_cons. intros Hown (x' & a' & s' & Hv & Ha' & Hs & ->)%exact_sum_cons.
  cbn in Hv. subst v'. destruct (String.eqb k' k).
  - simplify_eq. rewrite fmap_cons. apply exact_sum_cons.
    exists y, b, s'. repeat split; [done..|lia].
  - rewrite fmap_cons. apply exact_sum_cons.
    exists x', a', (s' - a + b)%Z. repeat split; [done|by apply IH|lia].
Qed.

Lemma define_exact_new o k y b s :
  own o k = None → exact_value y = Some b → exact_sum o.*2 = Some s →
  exact_sum (define o k (Num y)).*2 = Some (s + b)%Z.
Proof.
  intros Hown Hb. revert s Hown.
  induction o as [|[k' v'] o IH]; intros s; cbn [own define].
  - intros _ [= <-]. cbn. rewrite Hb. f_equal. lia.
  - rewrite fmap_cons. intros Hown (x' & a' & s' & Hv & Ha' & Hs & ->)%exact_sum_cons.
    cbn in Hv. subst v'. destruct (String.eqb k' k); [done|].
    rewrite fmap_cons. apply exact_sum_cons.
    exists x', a', (s' + b)%Z. repeat split; [done|by apply IH|lia].
Qed.

(** One row: the breakdown and the running total grow by the same amount. *)
Lemma group_exact o exp sum s t :
  category_or_other exp ∉ Object_prototype →
  exact_sum o.*2 = Some s → exact_value sum = Some t →
  exact_add (sum, amount_or_zero exp) = true →
  Forall (λ p, exact_add p = true)
    match or (get o (category_or_other exp)) (Num 0) with
    | Num x => [(x, amount_or_zero exp)]
    | Text | Obj | Undefined => []
    end →
  ∃ d, exact_sum (group o exp).*2 = Some (s + d)%Z
       ∧ exact_value (sum + amount_or_zero exp)%float = Some (t + d)%Z.
Proof.
  intros Hproto Hs Ht (t' & d & Ht' & Hd & Hsum)%exact_add_true Hadds.
  exists d. split; [|congruence].
  unfold group, JS.set, get in *.
  set (c := category_or_other exp) in *. set (a := amount_or_zero exp) in *.
  destruct (String.eqb_spec c "__proto__") as [Hc|_].
  { exfalso. apply Hproto. rewrite Hc. set_solver. }
  destruct (own o c) as [v|] eqn:Hown.
  - destruct (own_exact _ _ _ _ Hown Hs) as (x & vx & -> & Hx).
    unfold or in *. cbn [truthy] in *.
    destruct (number_truthy x) eqn:Htruthy; cbn [plus] in *.
    + apply Forall_singleton, exact_add_true in Hadds as (vx' & d' & ? & ? & Hy).
      erewrite define_exact_old by done. f_equal. simplify_eq. lia.
    + apply Forall_singleton, exact_add_true in Hadds as (z & d' & Hz & ? & Hy).
      assert (vx = 0%Z) as -> by by eapply falsy_exact_value.
      assert (z = 0%Z) as -> by (vm_compute in Hz; congruence).
      erewrite define_exact_old by done. f_equal. simplify_eq. lia.
  - rewrite bool_decide_eq_false_2 in * by done.
    unfold or in *. cbn [truthy plus] in *.
    apply Forall_singleton, exact_add_true in Hadds as (z & d' & Hz & ? & Hy).
    assert (z = 0%Z) as -> by (vm_compute in Hz; congruence).
    erewrite define_exact_new by done. f_equal. simplify_eq. lia.
Qed.

Lemma foldl_group_exact expenses o sum s t :
  Forall (λ exp, category_or_other exp ∉ Object_prototype) expenses →
  exact_sum o.*2 = Some s → exact_value sum = Some t →
  Forall (λ p, exact_add p = true)
    (total_additions sum expenses ++ group_additions o expenses) →
  ∃ d, exact_sum (foldl group o expenses).*2 = Some (s + d)%Z
       ∧ exact_value (foldl (λ sum exp, (sum + amount_or_zero exp)%float)
                        sum expenses) = Some (t + d)%Z.
Proof.
  revert o sum s t.
  induction expenses as [|exp expenses IH]; intros o sum s t Hproto Hs Ht Hadds.
  - exists 0%Z. cbn. rewrite !Z.add_0_r. done.
  - apply Forall_cons in Hproto as [Hexp Hproto].
    cbn [total_additions group_additions] in Hadds.
    rewrite Forall_app, Forall_cons, Forall_app in Hadds.
    destruct Hadds as [[Hadd Htotal] [Hgroup Hrest]].
    destruct (group_exact o exp sum s t) as (d & Hs' & Ht'); [done..|].
    destruct (IH _ _ _ _ Hproto Hs' Ht') as (d' & ? & ?).
    { by apply Forall_app. }
    exists (d + d')%Z. cbn [foldl]. rewrite !Z.add_assoc. done.
Qed.

(** C9 (as stated): with amounts 0.1 (category A), 0.2 and 0.3 (category
    B) the total is 0.6000000000000001 while the breakdown holds 0.1 and
    0.5, whose sum, exact or computed with [+], is not the total; and
    under the label ["constructor"] the breakdown holds a string, not the
    amount. *)
Lemma total_differs_from_breakdown_sum :
  let s := stats [ row (Some 0.1%float) "Approved" (Some "A");
                   row (Some 0.2%float) "Approved" (Some "B");
                   row (Some 0.3%float) "Approved" (Some "B") ] in
  let s' := stats [row (Some 10%float) "Approved" (Some "constructor")] in
  (total s = 0.6000000000000001%float
   ∧ Object_entries (byCategory s) = [("A", Num 0.1); ("B", Num 0.5)]
   ∧ exact_sum (Object_values (byCategory s)) ≠ exact_value (total s)
   ∧ float_sum (Object_values (byCategory s)) ≠ Num (total s))
  ∧ (total s' = 10%float
     ∧ Object_entries (byCategory s') = [("constructor", Text)]
     ∧ exact_sum (Object_values (byCategory s')) ≠ exact_value (total s')).
Proof.
  repeat split.
  - vm_compute. discriminate.
  - intros H.
    pose proof (f_equal (λ v, match v with
                              | Num x => Prim2SF x
                              | Text | Obj | Undefined => S754_nan
                              end) H) as E.
    vm_compute in E. discriminate E.
  - vm_compute. discriminate.
Qed.

(** C9 (amended): for every expense list in which no label is the name
    of a property of [Object.prototype], and on which no addition that
    [calculateStats] performs rounds, the total is finite and equals the
    sum of the values of the breakdown. *)
Theorem total_is_sum_of_byCategory (expenses : list Expense) :
  Forall (λ exp, category_or_other exp ∉ Object_prototype) expenses →
  Forall (λ p, exact_add p = true)
    (total_additions 0 expenses ++ group_additions [] expenses) →
  is_Some (exact_value (total (stats expenses)))
  ∧ exact_sum (Object_values (byCategory (stats expenses)))
    = exact_value (total (stats expenses)).
Proof.
  intros Hproto Hadds. rewrite stats_unfold. cbn [total byCategory].
  destruct (foldl_group_exact expenses [] 0%float 0%Z 0%Z) as (d & Hs & Ht);
    [done..|].
  unfold Object_values.
  rewrite (exact_sum_Permutation _ (foldl group [] expenses).*2)
    by (apply fmap_Permutation, Object_entries_Permutation).
  rewrite Hs, Ht. split; [by eexists | done].
Qed.

Lemma total_is_sum_of_byCategory_witness :
  let expenses := [ row (Some 10%float) "Approved" (Some "Food");
                    row (Some 5.5%float) "Rejected" (Some "Food");
                    row None "Rejected" (Some "7");
                    row (Some 7.25%float) "Manual Review" None ] in
  is_Some (exact_value (total (stats expenses)))
  ∧ exact_sum (Object_values (byCategory (stats expenses)))
    = exact_value (total (stats expenses)).
Proof.
  apply total_is_sum_of_byCategory.
  - repeat constructor; by apply (bool_decide_unpack _).
  - repeat constructor.
Defined.

(** ** Handlers *)

Lemma string_truthy_true s : string_truthy s = true ↔ s ≠ EmptyString.
Proof. destruct s; cbn; naive_solver. Qed.

Lemma no_identity_false st : no_identity st = false ↔ identity_saved st.
Proof.
  unfold no_identity, identity_saved.
  rewrite !orb_false_iff, !negb_false_iff, !string_truthy_true. naive_solver.
Qed.

Lemma no_identity_true st : no_identity st = true ↔ ¬ identity_saved st.
Proof.
  rewrite <- no_identity_false. destruct (no_identity st); naive_solver.
Qed.

(** What a submission that passes the three checks does. *)
Lemma handleSubmitExpense_validated st answer :
  passes_validation st →
  handleSubmitExpense st answer =
  [ setExpenseMessage None; setIsSubmitting true;
    fetch N8N_WEBHOOK_URL "POST" (formData st) ]
  ++ match answer with
     | fetch_rejects e =>
         [console_error; setExpenseMessage (Some (submit_failed e))]
     | fetch_resolves response =>
         if Response.ok response then
           [ setComment EmptyString; setSelectedFile None; clearFileInput;
             setExpenseMessage
               (Some match (if declares_json response
                            then Response.json response else None) with
                     | Some data =>
                         match Body.status data with
                         | Some status =>
                             if string_truthy status
                             then processed_message status (Body.reason data)
                             else sent_message
                         | None => sent_message
                         end
                     | None => sent_message
                     end);
             setTimeout (refreshHistory st) 1000 ]
         else
           [ console_error;
             setExpenseMessage (Some (submit_failed (http_error response))) ]
     end
  ++ [setIsSubmitting false].
Proof.
  intros (Hid%no_identity_false & Hsome & Htype).
  unfold handleSubmitExpense. rewrite Hid.
  destruct (selectedFile st) as [f|] eqn:Hfile.
  - rewrite bool_decide_eq_false_2 by done. cbn [andb].
    rewrite bool_decide_eq_true_2 by auto. cbn [negb].
    destruct answer as [e|r]; [done|]. by destruct (Response.ok r).
  - rewrite bool_decide_eq_true_2 by done. cbn [andb].
    rewrite (proj2 (string_truthy_true _)) by auto. cbn [negb].
    destruct answer as [e|r]; [done|]. by destruct (Response.ok r).
Qed.

(** C2: a submission checks, in this order and stopping at the first
    failure with only the message set (no request is made): that the
    identity is saved with a name and an id; that there is a file or a
    comment that is not blank; that the file, if any, declares one of the
    allowed image types.  When the three hold it sets the submitting flag
    and posts the form. *)
Theorem handleSubmitExpense_preconditions (st : AppState) (answer : FetchResult) :
  let effects := handleSubmitExpense st answer in
  (¬ identity_saved st →
   effects = [setExpenseMessage None; setExpenseMessage (Some identity_required)])
  ∧ (identity_saved st → selectedFile st = None →
     trim (comment st) = EmptyString →
     effects = [ setExpenseMessage None;
                 setExpenseMessage (Some receipt_or_description_required) ])
  ∧ (identity_saved st →
     ∀ f, selectedFile st = Some f → File.type f ∉ ALLOWED_FILE_TYPES →
     effects = [setExpenseMessage None; setExpenseMessage (Some invalid_format)])
  ∧ (passes_validation st →
     ∃ rest, effects = setExpenseMessage None :: setIsSubmitting true
                       :: fetch N8N_WEBHOOK_URL "POST" (formData st) :: rest).
Proof.
  cbn zeta. repeat split.
  - intros Hid%no_identity_true. unfold handleSubmitExpense. by rewrite Hid.
  - intros Hid%no_identity_false Hfile Hcomment.
    unfold handleSubmitExpense. by rewrite Hid, Hfile, Hcomment.
  - intros Hid%no_identity_false f Hfile Htype.
    unfold handleSubmitExpense. rewrite Hid, Hfile.
    rewrite (bool_decide_eq_false_2 (Some f = None)) by done.
    by rewrite bool_decide_eq_false_2.
  - intros Hpass. rewrite handleSubmitExpense_validated by done. eauto.
Qed.

Lemma handleSubmitExpense_preconditions_witness :
  let ana := {| fullName := "Ana"; employeeId := "E1" |} in
  let pdf := File.mk "receipt.pdf" "application/pdf" in
  let answer := fetch_rejects {| message := None |} in
  handleSubmitExpense (state_with ana false "taxi" None) answer
  = [setExpenseMessage None; setExpenseMessage (Some identity_required)]
  ∧ handleSubmitExpense (state_with ana true "  " None) answer
    = [ setExpenseMessage None;
        setExpenseMessage (Some receipt_or_description_required) ]
  ∧ handleSubmitExpense (state_with ana true "taxi" (Some pdf)) answer
    = [setExpenseMessage None; setExpenseMessage (Some invalid_format)]
  ∧ ∃ rest,
      handleSubmitExpense (state_with ana true "taxi" None) answer
      = setExpenseMessage None :: setIsSubmitting true
        :: fetch N8N_WEBHOOK_URL "POST"
             [ ("full_name", field "Ana"); ("employee_id", field "E1");
               ("comment", field "taxi") ]
        :: rest.
Proof.
  intros ana pdf answer.
  assert (Hsaved : ∀ text file, identity_saved (state_with ana true text file)).
  { intros. repeat split; discriminate. }
  split; [|split; [|split]].
  - apply (handleSubmitExpense_preconditions (state_with ana false "taxi" None)).
    intros [Hflag _]. discriminate Hflag.
  - apply (handleSubmitExpense_preconditions (state_with ana true "  " None));
      [apply Hsaved | reflexivity | reflexivity].
  - apply (proj1 (proj2 (proj2
      (handleSubmitExpense_preconditions
         (state_with ana true "taxi" (Some pdf)) answer))) (Hsaved _ _) pdf);
      [reflexivity | by apply (bool_decide_unpack _)].
  - apply (handleSubmitExpense_preconditions (state_with ana true "taxi" None)).
    split; [apply Hsaved | split].
    + intros _. discriminate.
    + intros f Hf. discriminate Hf.
Defined.

(** What a successful save leaves behind. *)
Lemma handleSaveEmployee_saved (b : Browser) :
  trim (fullName (employee (ui b))) ≠ EmptyString →
  trim (employeeId (employee (ui b))) ≠ EmptyString →
  let b' := step b clickSave in
  localStorage b' !! "techcorp_employee"
  = Some (JSON_stringify
            [ ("fullName", trim (fullName (employee (ui b))));
              ("employeeId", trim (employeeId (employee (ui b)))) ])
  ∧ isEmployeeSaved (ui b') = true
  ∧ employee (ui b') = employee (ui b)
  ∧ comment (ui b') = comment (ui b)
  ∧ selectedFile (ui b') = selectedFile (ui b).
Proof.
  intros Hname%string_truthy_true Hid%string_truthy_true.
  cbn zeta. cbn [step]. unfold handleSaveEmployee.
  rewrite Hname, Hid. cbn. by rewrite lookup_insert_eq.
Qed.

(** C3: saving the identity with a blank name shows the name error and
    writes nothing; with a name and a blank id it shows the id error and
    writes nothing; otherwise it stores the pair of trimmed strings under
    the key and sets the saved flag. *)
Theorem handleSaveEmployee_outcomes (b : Browser) :
  let name := trim (fullName (employee (ui b))) in
  let id := trim (employeeId (employee (ui b))) in
  let b' := step b clickSave in
  (name = EmptyString →
   handleSaveEmployee (ui b)
   = [setEmployeeMessage None; setEmployeeMessage (Some name_required)]
   ∧ employeeMessage (ui b') = Some name_required
   ∧ localStorage b' = localStorage b)
  ∧ (name ≠ EmptyString → id = EmptyString →
     handleSaveEmployee (ui b)
     = [setEmployeeMessage None; setEmployeeMessage (Some id_required)]
     ∧ employeeMessage (ui b') = Some id_required
     ∧ localStorage b' = localStorage b)
  ∧ (name ≠ EmptyString → id ≠ EmptyString →
     localStorage b' !! "techcorp_employee"
     = Some (JSON_stringify [("fullName", name); ("employeeId", id)])
     ∧ isEmployeeSaved (ui b') = true
     ∧ employeeMessage (ui b') = Some saved_message).
Proof.
  cbn zeta. cbn [step]. unfold handleSaveEmployee. split; [|split].
  - intros Hname. by rewrite Hname.
  - intros Hname%string_truthy_true Hid. by rewrite Hname, Hid.
  - intros Hname%string_truthy_true Hid%string_truthy_true.
    rewrite Hname, Hid. cbn. by rewrite lookup_insert_eq.
Qed.

Lemma handleSaveEmployee_outcomes_witness :
  let blank := browser_with
    (state_with {| fullName := "  "; employeeId := "E1" |} false EmptyString None) in
  let no_id := browser_with
    (state_with {| fullName := "Ana"; employeeId := " " |} false EmptyString None) in
  let padded := browser_with
    (state_with {| fullName := " Ana "; employeeId := "E1 " |} false EmptyString None) in
  (employeeMessage (ui (step blank clickSave)) = Some name_required
   ∧ localStorage (step blank clickSave) = ∅)
  ∧ (employeeMessage (ui (step no_id clickSave)) = Some id_required
     ∧ localStorage (step no_id clickSave) = ∅)
  ∧ (localStorage (step padded clickSave) !! "techcorp_employee"
     = Some (JSON_stringify [("fullName", "Ana"); ("employeeId", "E1")])
     ∧ isEmployeeSaved (ui (step padded clickSave)) = true).
Proof.
  intros blank no_id padded. split; [|split].
  - destruct (handleSaveEmployee_outcomes blank) as (H & _ & _).
    destruct H as (_ & Hmsg & Hstore); [reflexivity|]. by split.
  - destruct (handleSaveEmployee_outcomes no_id) as (_ & H & _).
    destruct H as (_ & Hmsg & Hstore); [discriminate | reflexivity |]. by split.
  - destruct (handleSaveEmployee_outcomes padded) as (_ & _ & H).
    destruct H as (Hstore & Hflag & _); [discriminate | discriminate |]. by split.
Defined.

(** C5: a history fetch runs on the state its closure captured (the
    current render for the refresh button and the effect hook, the render
    of the submission for the refresh timer) and acts on the browser as
    it is then.  Without a saved identity in that closure it does
    nothing.  With one, it ends with the loading flag cleared; when the
    query fails (it throws, or answers with an error) the list is the one
    held before and the error text is set; when it succeeds the list is
    the answer's data (empty for [null]) and the error is cleared. *)
Theorem fetchExpenseHistory_outcomes (closure : AppState) (b : Browser)
    (answer : QueryResult) :
  let b' := run (fetchExpenseHistory closure answer) b in
  (¬ identity_saved closure →
   fetchExpenseHistory closure answer = [] ∧ b' = b)
  ∧ (identity_saved closure →
     isLoadingHistory (ui b') = false
     ∧ match answer with
       | query_resolves data None =>
           expenses (ui b') = default [] data ∧ historyError (ui b') = None
       | query_resolves _ (Some _) | query_rejects _ =>
           expenses (ui b') = expenses (ui b)
           ∧ historyError (ui b') = Some history_error_text
       end).
Proof.
  cbn zeta. unfold fetchExpenseHistory. split.
  - intros Hid%no_identity_true. by rewrite Hid.
  - intros Hid%no_identity_false. rewrite Hid.
    by destruct answer as [e|data [e|]].
Qed.

Lemma fetchExpenseHistory_outcomes_witness :
  let ana := {| fullName := "Ana"; employeeId := "E1" |} in
  let held := [row (Some 10%float) "Approved" (Some "Food")] in
  let loaded := run [setExpenses held] (browser_with (state_with ana true EmptyString None)) in
  let failed := run (fetchExpenseHistory (ui loaded) (query_rejects {| message := None |})) loaded in
  let fresh := [row (Some 3%float) "Rejected" None] in
  let again := run (fetchExpenseHistory (ui failed) (query_resolves (Some fresh) None)) failed in
  let emptied := steps [changeFullName EmptyString; changeEmployeeId EmptyString] loaded in
  let late := run (fetchExpenseHistory (ui loaded) (query_resolves (Some fresh) None)) emptied in
  run (fetchExpenseHistory (ui initial) (query_resolves (Some fresh) None)) initial
  = initial
  ∧ (expenses (ui failed) = held
     ∧ historyError (ui failed) = Some history_error_text
     ∧ isLoadingHistory (ui failed) = false)
  ∧ (expenses (ui again) = fresh
     ∧ historyError (ui again) = None
     ∧ isLoadingHistory (ui again) = false)
  ∧ (expenses (ui late) = fresh
     ∧ historyError (ui late) = None
     ∧ isLoadingHistory (ui late) = false).
Proof.
  intros ana held loaded failed fresh again emptied late.
  split; [|split; [|split]].
  - apply (fetchExpenseHistory_outcomes (ui initial) initial).
    intros [Hflag _]. discriminate Hflag.
  - destruct (fetchExpenseHistory_outcomes (ui loaded) loaded
                (query_rejects {| message := None |})) as [_ H].
    destruct H as (Hload & Hlist & Herr); [repeat split; discriminate|].
    repeat split; assumption.
  - destruct (fetchExpenseHistory_outcomes (ui failed) failed
                (query_resolves (Some fresh) None)) as [_ H].
    destruct H as (Hload & Hlist & Herr); [repeat split; discriminate|].
    repeat split; assumption.
  - destruct (fetchExpenseHistory_outcomes (ui loaded) emptied
                (query_resolves (Some fresh) None)) as [_ H].
    destruct H as (Hload & Hlist & Herr); [repeat split; discriminate|].
    repeat split; assumption.
Defined.

(** C8: for a submission that passes validation, the submitting flag is
    cleared at the end whatever the answer.  When the request throws, the
    message shown is the error text with the thrown message (or the
    fallback text when there is none); when the response is not 2xx it is
    the error text with the status code.  In both cases the comment and
    the selected file are the ones held before. *)
Theorem handleSubmitExpense_failure (b : Browser) (answer : FetchResult) :
  passes_validation (ui b) →
  let b' := run (handleSubmitExpense (ui b) answer) b in
  isSubmitting (ui b') = false
  ∧ (∀ e, answer = fetch_rejects e →
       expenseMessage (ui b')
       = Some (Message.mk error
                 ("Грешка при изпращане на разхода: "
                  +:+ match message e with
                      | Some text =>
                          if string_truthy text then text
                          else "Моля, опитайте отново."
                      | None => "Моля, опитайте отново."
                      end))
       ∧ comment (ui b') = comment (ui b)
       ∧ selectedFile (ui b') = selectedFile (ui b))
  ∧ (∀ r, answer = fetch_resolves r → Response.ok r = false →
       expenseMessage (ui b')
       = Some (Message.mk error
                 ("Грешка при изпращане на разхода: HTTP error! status: "
                  +:+ integer_to_string (Response.status r)))
       ∧ comment (ui b') = comment (ui b)
       ∧ selectedFile (ui b') = selectedFile (ui b)).
Proof.
  intros Hpass. cbn zeta. rewrite handleSubmitExpense_validated by done.
  split; [|split].
  - destruct answer as [e|r]; [done|]. by destruct (Response.ok r).
  - intros e ->. done.
  - intros r -> Hok. rewrite Hok. done.
Qed.

Lemma handleSubmitExpense_failure_witness :
  let ana := {| fullName := "Ana"; employeeId := "E1" |} in
  let png := File.mk "r.png" "image/png" in
  let b := browser_with (state_with ana true "taxi" (Some png)) in
  let down := fetch_rejects {| message := Some "Failed to fetch" |} in
  let refused := fetch_resolves (Response.mk 500 None None) in
  (isSubmitting (ui (run (handleSubmitExpense (ui b) down) b)) = false
   ∧ expenseMessage (ui (run (handleSubmitExpense (ui b) down) b))
     = Some (Message.mk error "Грешка при изпращане на разхода: Failed to fetch")
   ∧ comment (ui (run (handleSubmitExpense (ui b) down) b)) = "taxi"
   ∧ selectedFile (ui (run (handleSubmitExpense (ui b) down) b)) = Some png)
  ∧ (isSubmitting (ui (run (handleSubmitExpense (ui b) refused) b)) = false
     ∧ expenseMessage (ui (run (handleSubmitExpense (ui b) refused) b))
       = Some (Message.mk error
                 "Грешка при изпращане на разхода: HTTP error! status: 500")
     ∧ comment (ui (run (handleSubmitExpense (ui b) refused) b)) = "taxi"
     ∧ selectedFile (ui (run (handleSubmitExpense (ui b) refused) b)) = Some png).
Proof.
  intros ana png b down refused.
  assert (Hpass : passes_validation (ui b)).
  { split; [repeat split; discriminate|]. split; [discriminate|].
    intros f [= <-]. by apply (bool_decide_unpack _). }
  split.
  - destruct (handleSubmitExpense_failure b down Hpass) as (Hflag & Hthrown & _).
    destruct (Hthrown _ eq_refl) as (Hmsg & Hcomment & Hfile).
    repeat split; assumption.
  - destruct (handleSubmitExpense_failure b refused Hpass) as (Hflag & _ & Hhttp).
    destruct (Hhttp _ eq_refl eq_refl) as (Hmsg & Hcomment & Hfile).
    repeat split; assumption.
Defined.

Lemma trim_not_empty s : trim s ≠ EmptyString → s ≠ EmptyString.
Proof. intros Htrim ->. by apply Htrim. Qed.

(** C10: a successful save of a name or an id with surrounding white
    space stores the trimmed pair and leaves the pair held in memory as
    typed; the form a later valid submission posts, and the filter of the
    history query, carry the strings as typed, which are not the stored
    ones. *)
Theorem save_keeps_identity_as_typed (b : Browser) :
  let name := fullName (employee (ui b)) in
  let id := employeeId (employee (ui b)) in
  trim name ≠ EmptyString → trim id ≠ EmptyString →
  trim name ≠ name ∨ trim id ≠ id →
  let b' := step b clickSave in
  localStorage b' !! "techcorp_employee"
  = Some (JSON_stringify [("fullName", trim name); ("employeeId", trim id)])
  ∧ employee (ui b') = employee (ui b)
  ∧ (name, id) ≠ (trim name, trim id)
  ∧ (∀ answer,
       (selectedFile (ui b) = None → trim (comment (ui b)) ≠ EmptyString) →
       (∀ f, selectedFile (ui b) = Some f → File.type f ∈ ALLOWED_FILE_TYPES) →
       ∃ form rest,
         handleSubmitExpense (ui b') answer
         = setExpenseMessage None :: setIsSubmitting true
           :: fetch N8N_WEBHOOK_URL "POST"
                (("full_name", field name) :: ("employee_id", field id) :: form)
           :: rest)
  ∧ (∀ answer,
       ∃ rest,
         fetchExpenseHistory (ui b') answer
         = setIsLoadingHistory true :: setHistoryError None
           :: supabase_select "expenses" "*" "employee_id" id "created_at" false
           :: rest).
Proof.
  intros name id Hname Hid Hpadded b'.
  destruct (handleSaveEmployee_saved b Hname Hid)
    as (Hstore & Hflag & Hemployee & Hcomment & Hfile).
  fold b' in Hstore, Hflag, Hemployee, Hcomment, Hfile.
  assert (Hsaved : identity_saved (ui b')).
  { unfold identity_saved. rewrite Hemployee.
    split; [done|]. split; by apply trim_not_empty. }
  split; [done|]. split; [done|]. split; [naive_solver|]. split.
  - intros answer Hsome Htype.
    rewrite handleSubmitExpense_validated.
    + unfold formData. rewrite Hemployee. eauto.
    + split; [done|]. by rewrite Hcomment, Hfile.
  - intros answer. unfold fetchExpenseHistory.
    rewrite (proj2 (no_identity_false _)) by done. rewrite Hemployee. eauto.
Qed.

Lemma save_keeps_identity_as_typed_witness :
  let b := browser_with
    (state_with {| fullName := " Ana "; employeeId := "E1 " |} false "taxi" None) in
  let b' := step b clickSave in
  localStorage b' !! "techcorp_employee"
  = Some (JSON_stringify [("fullName", "Ana"); ("employeeId", "E1")])
  ∧ employee (ui b') = {| fullName := " Ana "; employeeId := "E1 " |}
  ∧ (∃ form rest,
       handleSubmitExpense (ui b') (fetch_rejects {| message := None |})
       = setExpenseMessage None :: setIsSubmitting true
         :: fetch N8N_WEBHOOK_URL "POST"
              (("full_name", field " Ana ") :: ("employee_id", field "E1 ") :: form)
         :: rest)
  ∧ (∃ rest,
       fetchExpenseHistory (ui b') (query_resolves None None)
       = setIsLoadingHistory true :: setHistoryError None
         :: supabase_select "expenses" "*" "employee_id" "E1 " "created_at" false
         :: rest).
Proof.
  intros b b'.
  destruct (save_keeps_identity_as_typed b) as (Hstore & Hemployee & _ & Hpost & Hquery).
  - discriminate.
  - discriminate.
  - left. discriminate.
  - split; [exact Hstore|]. split; [exact Hemployee|]. split.
    + apply Hpost; [discriminate|]. intros f Hf. discriminate Hf.
    + apply Hquery.
Defined.

(** ** The timer of the saved message *)

Lemma perform_employeeMessage b eff :
  employeeMessage (ui (perform b eff))
  = shown_after (employeeMessage (ui b)) [eff].
Proof. by destruct eff. Qed.

Lemma run_employeeMessage effects b :
  employeeMessage (ui (run effects b))
  = shown_after (employeeMessage (ui b)) effects.
Proof.
  revert b. induction effects as [|eff effects IH]; intros b; [done|].
  cbn [run foldl]. fold (run effects (perform b eff)).
  rewrite IH, perform_employeeMessage. done.
Qed.

(** A timer never shows an identity message. *)
Lemma fire_sets_no_message cb answer m :
  setEmployeeMessage (Some m) ∉ fire cb answer.
Proof.
  destruct cb as [|closure]; cbn.
  - set_solver.
  - unfold fetchExpenseHistory. destruct (no_identity closure); [set_solver|].
    destruct answer as [e|data [e|]]; set_solver.
Qed.

Lemma shown_after_None effects :
  (∀ m, setEmployeeMessage (Some m) ∉ effects) →
  shown_after None effects = None.
Proof.
  induction effects as [|eff effects IH]; intros Hno; [done|].
  unfold shown_after. cbn [foldl]. fold (shown_after).
  destruct eff as [|[m|]| | | | | | | | | | | | | |];
    try (apply IH; intros m' Hin; apply (Hno m'); by right).
  exfalso. apply (Hno m). by left.
Qed.

Lemma shown_after_cleared effects shown :
  (∀ m, setEmployeeMessage (Some m) ∉ effects) →
  setEmployeeMessage None ∈ effects →
  shown_after shown effects = None.
Proof.
  revert shown. induction effects as [|eff effects IH]; intros shown Hno Hin.
  - by apply elem_of_nil in Hin.
  - assert (Hrest : ∀ m, setEmployeeMessage (Some m) ∉ effects).
    { intros m' Hm. apply (Hno m'). by right. }
    apply elem_of_cons in Hin as [<-|Hin].
    + by apply shown_after_None.
    + unfold shown_after. cbn [foldl]. by apply IH.
Qed.

(** C4 (as stated): a successful save shows the saved message and starts
    the timer; two seconds later a save with an emptied name shows the
    name error; when the first timer fires one second after that, the
    name error, a message the timer was not started for, is cleared. *)
Lemma earlier_timer_clears_later_message :
  let answer := query_resolves None None in
  let saved :=
    steps [changeFullName "Ana"; changeEmployeeId "E1"; clickSave] initial in
  let replaced :=
    steps [elapse 2000 answer; changeFullName EmptyString; clickSave] saved in
  let fired := step replaced (elapse 1000 answer) in
  (employeeMessage (ui saved) = Some saved_message
   ∧ timers saved = [(3000, clearEmployeeMessage)])
  ∧ (employeeMessage (ui replaced) = Some name_required
     ∧ timers replaced = [(3000, clearEmployeeMessage)]
     ∧ clock replaced = 2000)
  ∧ employeeMessage (ui fired) = None
  ∧ employeeMessage (ui fired) ≠ employeeMessage (ui replaced).
Proof. vm_compute. repeat split. discriminate. Qed.

(** C4 (amended): when the timer of a saved message fires, three seconds
    after the save, it clears the identity message shown at that moment,
    whichever it is and whenever it was set. *)
Theorem timer_clears_message_shown (b : Browser) (ms due : nat)
    (answer : QueryResult) :
  (due, clearEmployeeMessage) ∈ timers b →
  (due <= clock b + ms)%nat →
  employeeMessage (ui (step b (elapse ms answer))) = None.
Proof.
  intros Hpending Hdue. cbn [step]. rewrite run_employeeMessage.
  apply shown_after_cleared.
  - intros m (t & Hm & _)%list_elem_of_bind.
    by apply fire_sets_no_message in Hm.
  - apply list_elem_of_bind. exists (due, clearEmployeeMessage). split.
    + cbn. by left.
    + apply list_elem_of_filter. by split.
Qed.

Lemma timer_clears_message_shown_witness :
  let answer := query_resolves None None in
  let replaced :=
    steps [ changeFullName "Ana"; changeEmployeeId "E1"; clickSave;
            elapse 2000 answer; changeFullName EmptyString; clickSave ]
      initial in
  employeeMessage (ui replaced) = Some name_required
  ∧ employeeMessage (ui (step replaced (elapse 1000 answer))) = None.
Proof.
  intros answer replaced. split; [reflexivity|].
  apply (timer_clears_message_shown replaced 1000 3000 answer).
  - vm_compute. by left.
  - vm_compute. lia.
Defined.

(** * Further properties *)

(** ** The breakdown as a map *)

Lemma own_define_eq o k v : own (define o k v) k = Some v.
Proof.
  induction o as [|[k' v'] o IH]; cbn.
  - by rewrite String.eqb_refl.
  - destruct (String.eqb_spec k' k) as [->|Hne]; cbn.
    + by rewrite String.eqb_refl.
    + by destruct (String.eqb_spec k' k).
Qed.

Lemma own_define_ne o k k' v : k ≠ k' → own (define o k v) k' = own o k'.
Proof.
  intros Hne. induction o as [|[k0 v0] o IH]; cbn.
  - by destruct (String.eqb_spec k k').
  - destruct (String.eqb_spec k0 k) as [->|Hne0]; cbn.
    + by destruct (String.eqb_spec k k').
    + by rewrite IH.
Qed.

Lemma group_proto o exp :
  category_or_other exp = "__proto__" → group o exp = o.
Proof. intros Hc. unfold group, JS.set. by rewrite Hc. Qed.

Lemma foldl_group_skip_proto expenses o :
  foldl group o expenses
  = foldl group o
      (filter (λ exp, category_or_other exp ≠ "__proto__") expenses).
Proof.
  revert o. induction expenses as [|exp expenses IH]; intros o; [done|].
  rewrite filter_cons. case_decide as Hc; cbn [foldl].
  - apply IH.
  - rewrite group_proto by done. apply IH.
Qed.

Lemma first_seen_elem_of_iff c labels : c ∈ first_seen labels ↔ c ∈ labels.
Proof.
  induction labels as [|c' labels IH]; cbn; [done|].
  rewrite !elem_of_cons, list_elem_of_filter, IH.
  destruct (decide (c = c')); naive_solver.
Qed.

Lemma NoDup_first_seen labels : NoDup (first_seen labels).
Proof.
  induction labels as [|c labels IH]; cbn; [constructor|].
  apply NoDup_cons. split.
  - rewrite list_elem_of_filter. naive_solver.
  - by apply NoDup_filter.
Qed.

(** The own keys of the breakdown, in creation order, whatever the labels. *)
Lemma byCategory_own_keys expenses :
  (foldl group [] expenses).*1
  = first_seen
      (filter (λ c, c ≠ "__proto__") (category_or_other <$> expenses)).
Proof.
  rewrite foldl_group_skip_proto, foldl_group_keys.
  - cbn. rewrite filter_all by (apply Forall_forall; intros c _; apply not_elem_of_nil).
    f_equal. induction expenses as [|exp expenses IH]; [done|].
    rewrite fmap_cons, !filter_cons. case_decide; [|done].
    by rewrite fmap_cons, IH.
  - apply Forall_forall. by intros exp [? _]%list_elem_of_filter.
Qed.

(** X1: the keys of the breakdown are, without repetition, exactly the
    labels of the rows (the category, or ["Други"] for an empty or absent
    one), except ["__proto__"]. *)
Theorem byCategory_keys_are_labels (expenses : list Expense) :
  NoDup (Object_keys (byCategory (stats expenses)))
  ∧ ∀ k, k ∈ Object_keys (byCategory (stats expenses))
         ↔ k ≠ "__proto__" ∧ ∃ exp, exp ∈ expenses ∧ category_or_other exp = k.
Proof.
  rewrite stats_unfold. cbn [byCategory]. unfold Object_keys.
  assert (Hperm : (Object_entries (foldl group [] expenses)).*1
                  ≡ₚ (foldl group [] expenses).*1)
    by apply fmap_Permutation, Object_entries_Permutation.
  split.
  - rewrite Hperm, byCategory_own_keys. apply NoDup_first_seen.
  - intros k. rewrite Hperm, byCategory_own_keys, first_seen_elem_of_iff.
    rewrite list_elem_of_filter, list_elem_of_fmap. naive_solver.
Qed.

Lemma foldl_group_own expenses o o' c :
  own o c = own o' c →
  own (foldl group o expenses) c
  = own (foldl group o' (filter (λ exp, category_or_other exp = c) expenses)) c.
Proof.
  revert o o'. induction expenses as [|exp expenses IH]; intros o o' Hown; [done|].
  rewrite filter_cons. cbn [foldl]. case_decide as Hc; cbn [foldl]; apply IH.
  - unfold group, JS.set, get. rewrite Hc, Hown.
    destruct (String.eqb c "__proto__"); [done|].
    by rewrite !own_define_eq.
  - unfold group, JS.set.
    destruct (String.eqb (category_or_other exp) "__proto__"); [done|].
    by rewrite own_define_ne.
Qed.

(** X2: the value the breakdown holds under a label depends only on the
    rows that carry this label: it is the value computed from these rows
    alone. *)
Theorem byCategory_value_by_label (expenses : list Expense) (c : string) :
  get (byCategory (stats expenses)) c
  = get (byCategory
           (stats (filter (λ exp, category_or_other exp = c) expenses))) c.
Proof.
  rewrite !stats_unfold. cbn [byCategory]. unfold get.
  by rewrite (foldl_group_own expenses [] [] c).
Qed.

(** ** Counts by status *)

Lemma length_filter_all {A} (P : A → Prop) `{∀ x, Decision (P x)} (l : list A) :
  length (filter P l) = length l ↔ Forall P l.
Proof.
  split; [|intros Hall; by rewrite filter_all].
  induction l as [|x l IH]; [constructor|].
  rewrite filter_cons. case_decide as Hx; cbn [length].
  - intros [= Hlen]. constructor; auto.
  - pose proof (length_filter P l). lia.
Qed.

Lemma getStatusClass_known status :
  getStatusClass status ≠ EmptyString
  ↔ status = "Approved" ∨ status = "Rejected" ∨ status = "Manual Review".
Proof.
  unfold getStatusClass.
  destruct (String.eqb_spec status "Approved"); [naive_solver|].
  destruct (String.eqb_spec status "Rejected"); [naive_solver|].
  destruct (String.eqb_spec status "Manual Review"); naive_solver.
Qed.

Lemma getStatusClass_unknown status :
  getStatusClass status = EmptyString
  ↔ ¬ (status = "Approved" ∨ status = "Rejected" ∨ status = "Manual Review").
Proof.
  rewrite <- getStatusClass_known.
  destruct (decide (getStatusClass status = EmptyString)); naive_solver.
Qed.

(** X3: the three counts add up to the number of rows whose status gets
    a badge class, that is, is one of the three known statuses; so they
    never exceed the number of rows, and reach it exactly when every
    status is known. *)
Theorem counts_partition_known_statuses (expenses : list Expense) :
  let s := stats expenses in
  let known exp := getStatusClass (Expense.status exp) ≠ EmptyString in
  approved s + rejected s + pending s = length (filter known expenses)
  ∧ (approved s + rejected s + pending s <= length expenses)%nat
  ∧ (approved s + rejected s + pending s = length expenses
     ↔ Forall known expenses).
Proof.
  intros s known.
  assert (Hsum : approved s + rejected s + pending s
                 = length (filter known expenses)).
  { subst s. rewrite stats_unfold. cbn [approved rejected pending].
    induction expenses as [|exp expenses IH]; [done|].
    rewrite !filter_cons. subst known. cbn beta in *.
    repeat case_decide; cbn [length];
      rewrite ?getStatusClass_known, ?getStatusClass_unknown in *;
      try lia; exfalso; intuition congruence. }
  rewrite Hsum. split; [done|]. split.
  - apply length_filter.
  - apply length_filter_all.
Qed.

(** X4: the three counts do not depend on the order of the rows. *)
Theorem counts_ignore_order (expenses expenses' : list Expense) :
  expenses ≡ₚ expenses' →
  approved (stats expenses) = approved (stats expenses')
  ∧ rejected (stats expenses) = rejected (stats expenses')
  ∧ pending (stats expenses) = pending (stats expenses').
Proof.
  intros Hperm. rewrite !stats_unfold. cbn [approved rejected pending].
  by rewrite Hperm.
Qed.

Lemma counts_ignore_order_witness :
  let a := row (Some 1%float) "Approved" None in
  let r := row (Some 2%float) "Rejected" None in
  approved (stats [a; r; a]) = approved (stats [r; a; a])
  ∧ rejected (stats [a; r; a]) = rejected (stats [r; a; a])
  ∧ pending (stats [a; r; a]) = pending (stats [r; a; a]).
Proof.
  intros a r. apply (counts_ignore_order [a; r; a] [r; a; a]).
  apply perm_swap.
Defined.

(** X5: a status is translated exactly when it gets a badge class: the
    two switches know the same statuses; and a translation is never
    translated again. *)
Theorem translateStatus_known (status : string) :
  (translateStatus status = status ↔ getStatusClass status = EmptyString)
  ∧ translateStatus (translateStatus status) = translateStatus status.
Proof.
  unfold translateStatus at 1 3 4, getStatusClass.
  destruct (String.eqb_spec status "Approved") as [->|H1]; [by split|].
  destruct (String.eqb_spec status "Rejected") as [->|H2]; [by split|].
  destruct (String.eqb_spec status "Manual Review") as [->|H3]; [by split|].
  split; [done|]. unfold translateStatus.
  destruct (String.eqb_spec status "Approved"); [done|].
  destruct (String.eqb_spec status "Rejected"); [done|].
  by destruct (String.eqb_spec status "Manual Review").
Qed.

(** ** Events and their effects *)

Lemma step_performed b ev : step b ev = run (performed b ev) (before b ev).
Proof.
  destruct ev; cbn [step performed before]; try done.
  - by destruct (isSubmitting (ui b)).
  - by destruct (isEmployeeSaved (ui b) && negb (isLoadingHistory (ui b))).
Qed.

Lemma run_invariant (Q : Browser → Prop) (P : Effect → Prop) effects b :
  (∀ b eff, P eff → Q b → Q (perform b eff)) →
  Forall P effects → Q b → Q (run effects b).
Proof.
  intros Hstep Hall. revert b.
  induction Hall as [|eff effects Heff _ IH]; intros b HQ; [done|].
  cbn [run foldl]. apply IH. by apply Hstep.
Qed.

Lemma Forall_list_bind {A B} (P : B → Prop) (f : A → list B) (l : list A) :
  (∀ x, x ∈ l → Forall P (f x)) → Forall P (l ≫= f).
Proof.
  intros Hf. apply Forall_forall. intros y (x & Hy & Hx)%list_elem_of_bind.
  specialize (Hf x Hx). rewrite Forall_forall in Hf. auto.
Qed.

Lemma fetchExpenseHistory_effects st answer :
  Forall (λ eff, history_effect eff = true ∧ within_footprint eff = true)
    (fetchExpenseHistory st answer).
Proof.
  unfold fetchExpenseHistory. destruct (no_identity st); [constructor|].
  destruct answer as [e|data [e|]]; repeat constructor.
Qed.

Lemma fire_effects cb answer :
  Forall (λ eff, (history_effect eff = true ∨ eff = setEmployeeMessage None)
                 ∧ within_footprint eff = true)
    (fire cb answer).
Proof.
  destruct cb as [|closure]; cbn [fire].
  - apply Forall_singleton. split; [by right | done].
  - eapply Forall_impl; [apply fetchExpenseHistory_effects|]. naive_solver.
Qed.

Lemma component_footprint_parts (b : Browser) (ev : Event) :
  step b ev = run (performed b ev) (before b ev)
  ∧ Forall (λ eff, within_footprint eff = true) (performed b ev).
Proof.
  split; [apply step_performed|].
  destruct ev as [v|v|v|f| |answer|answer|ms answer]; cbn [performed].
  - repeat constructor.
  - repeat constructor.
  - repeat constructor.
  - unfold handleFileChange. destruct f as [f|]; [|constructor].
    case_bool_decide as Htype; repeat constructor.
    cbn. by apply bool_decide_eq_true_2.
  - unfold handleSaveEmployee.
    repeat case_match; repeat constructor.
  - destruct (isSubmitting (ui b)); [constructor|].
    unfold handleSubmitExpense.
    repeat case_match; repeat constructor.
  - destruct (isEmployeeSaved (ui b) && negb (isLoadingHistory (ui b)));
      [|constructor].
    eapply Forall_impl; [apply fetchExpenseHistory_effects|]. naive_solver.
  - apply Forall_list_bind. intros t _.
    eapply Forall_impl; [apply fire_effects|]. naive_solver.
Qed.

(** X6: whatever the state and the event, the component only sets the
    saved flag (never resets it), writes storage only under the key
    [techcorp_employee], selects a file only if its type is allowed, sends
    only the POST to the webhook and the query on [expenses], and starts
    only the 3000 ms timer of the saved message and the 1000 ms timer of
    the history refresh. *)
Theorem component_footprint (b : Browser) (ev : Event) :
  step b ev = run (performed b ev) (before b ev)
  ∧ Forall (λ eff, within_footprint eff = true) (performed b ev).
Proof. apply component_footprint_parts. Qed.

Lemma historyEffect_effects previous current answer :
  Forall (λ eff, history_effect eff = true ∧ within_footprint eff = true)
    (historyEffect previous current answer).
Proof.
  unfold historyEffect. case_bool_decide; [constructor|].
  destruct (isEmployeeSaved current); [|constructor].
  apply fetchExpenseHistory_effects.
Qed.

Lemma reachable_invariant (Q : Browser → Prop) b b' :
  (∀ b eff, within_footprint eff = true → Q b → Q (perform b eff)) →
  (∀ b ev, Q b → Q (before b ev)) →
  reachable_from b b' → Q b → Q b'.
Proof.
  intros Hperform Hbefore Hreach HQ.
  assert (Hstep : ∀ b0 ev, Q b0 → Q (step b0 ev)).
  { intros b0 ev HQ0. destruct (component_footprint_parts b0 ev) as [-> Hall].
    eapply run_invariant; [apply Hperform | apply Hall | by apply Hbefore]. }
  induction Hreach as [|b' ev _ IH|b' ev answer _ IH]; [done|by apply Hstep|].
  unfold step_then_effect.
  eapply run_invariant; [apply Hperform| |by apply Hstep].
  eapply Forall_impl; [apply historyEffect_effects|]. naive_solver.
Qed.

(** X7: once the identity is marked saved it stays so in every state
    reached afterwards (also after a save that fails validation, or with
    emptied fields). *)
Theorem saved_flag_never_reset (b b' : Browser) :
  reachable_from b b' →
  isEmployeeSaved (ui b) = true →
  isEmployeeSaved (ui b') = true.
Proof.
  intros Hreach.
  apply (reachable_invariant (λ b, isEmployeeSaved (ui b) = true) b b');
    [| |done].
  - intros b0 eff Heff HQ. by destruct eff.
  - intros b0 ev HQ. by destruct ev.
Qed.

Lemma saved_flag_never_reset_witness :
  let saved :=
    steps [changeFullName "Ana"; changeEmployeeId "E1"; clickSave] initial in
  isEmployeeSaved
    (ui (step (step_then_effect (step saved (changeFullName EmptyString))
                 (changeEmployeeId EmptyString) (query_resolves None None))
           clickSave))
  = true.
Proof.
  intros saved. apply (saved_flag_never_reset saved); [|reflexivity].
  repeat constructor.
Defined.

(** X8: in no state reached does local storage hold, under a key other
    than [techcorp_employee], anything else than at the start. *)
Theorem storage_written_under_one_key (b b' : Browser) (k : string) :
  reachable_from b b' →
  k ≠ "techcorp_employee" →
  localStorage b' !! k = localStorage b !! k.
Proof.
  intros Hreach Hk.
  apply (reachable_invariant
           (λ b0, localStorage b0 !! k = localStorage b !! k) b b');
    [| by intros b0 [] | done | done].
  intros b0 eff Heff HQ. destruct eff; try done.
  cbn in *. apply String.eqb_eq in Heff as ->. by rewrite lookup_insert_ne.
Qed.

Lemma storage_written_under_one_key_witness :
  let b := {| ui := ui initial; localStorage := {[ "theme" := "dark" ]};
              timers := []; clock := 0 |} in
  localStorage
    (steps [changeFullName "Ana"; changeEmployeeId "E1"; clickSave] b)
  !! "theme" = Some "dark".
Proof.
  intros b.
  rewrite (storage_written_under_one_key b _ "theme");
    [reflexivity | repeat constructor | discriminate].
Defined.

Lemma handleSubmitExpense_no_invalid_format st answer :
  (∀ f, selectedFile st = Some f → File.type f ∈ ALLOWED_FILE_TYPES) →
  setExpenseMessage (Some invalid_format) ∉ handleSubmitExpense st answer.
Proof.
  intros Hfile. unfold handleSubmitExpense.
  destruct (no_identity st).
  { rewrite !not_elem_of_cons. repeat split; try discriminate. apply not_elem_of_nil. }
  destruct (selectedFile st) as [f|] eqn:Hf.
  - rewrite bool_decide_eq_false_2 by done. cbn [andb].
    rewrite bool_decide_eq_true_2 by auto. cbn [negb].
    destruct answer as [e|r]; [|destruct (Response.ok r)]; cbn [negb app];
      rewrite !not_elem_of_cons; repeat split;
      try discriminate; try apply not_elem_of_nil.
    repeat case_match; discriminate.
  - rewrite bool_decide_eq_true_2 by done. cbn [andb].
    destruct (string_truthy (trim (comment st))); cbn [negb].
    + destruct answer as [e|r]; [|destruct (Response.ok r)]; cbn [negb app];
        rewrite !not_elem_of_cons; repeat split;
        try discriminate; try apply not_elem_of_nil.
      repeat case_match; discriminate.
    + rewrite !not_elem_of_cons. repeat split; try discriminate.
      apply not_elem_of_nil.
Qed.

(** X9: starting with no file or an allowed one selected, in every state
    reached the selected file, if any, has an allowed type, so no
    submission reports an invalid format: that check of
    [handleSubmitExpense] cannot fail. *)
Theorem selected_file_always_allowed (b b' : Browser) (answer : FetchResult) :
  reachable_from b b' →
  (∀ f, selectedFile (ui b) = Some f → File.type f ∈ ALLOWED_FILE_TYPES) →
  (∀ f, selectedFile (ui b') = Some f → File.type f ∈ ALLOWED_FILE_TYPES)
  ∧ setExpenseMessage (Some invalid_format) ∉ handleSubmitExpense (ui b') answer.
Proof.
  intros Hreach Hb.
  assert (Hallowed : ∀ f, selectedFile (ui b') = Some f →
                          File.type f ∈ ALLOWED_FILE_TYPES).
  { apply (reachable_invariant
             (λ b, ∀ f, selectedFile (ui b) = Some f →
                        File.type f ∈ ALLOWED_FILE_TYPES) b b'); [| |done|done].
    - intros b0 eff Heff HQ. destruct eff; try done.
      cbn. intros f' ->. cbn in Heff. by apply bool_decide_eq_true_1 in Heff.
    - intros b0 ev HQ. by destruct ev. }
  split; [done|]. by apply handleSubmitExpense_no_invalid_format.
Qed.

Lemma selected_file_always_allowed_witness :
  let png := File.mk "r.png" "image/png" in
  let pdf := File.mk "r.pdf" "application/pdf" in
  let b := steps [ changeFullName "Ana"; changeEmployeeId "E1"; clickSave;
                   changeFile (Some png); changeFile (Some pdf) ] initial in
  (∀ f, selectedFile (ui b) = Some f → File.type f ∈ ALLOWED_FILE_TYPES)
  ∧ setExpenseMessage (Some invalid_format)
    ∉ handleSubmitExpense (ui b) (fetch_rejects {| message := None |}).
Proof.
  intros png pdf b. apply (selected_file_always_allowed initial).
  - repeat constructor.
  - intros f Hf. discriminate Hf.
Defined.

(** ** What events leave alone *)

(** X10: the handlers of typing, choosing a file, saving the identity and
    submitting an expense never change the list of expenses, the history
    error or the loading flag: only a history fetch does. *)
Theorem form_events_keep_history (b : Browser) (ev : Event) :
  is_history_event ev = false →
  expenses (ui (step b ev)) = expenses (ui b)
  ∧ historyError (ui (step b ev)) = historyError (ui b)
  ∧ isLoadingHistory (ui (step b ev)) = isLoadingHistory (ui b).
Proof.
  intros Hev.
  destruct ev as [v|v|v|f| |answer|answer|ms answer]; try discriminate Hev;
    cbn [step]; try done.
  - unfold handleFileChange. by repeat case_match.
  - unfold handleSaveEmployee. by repeat case_match.
  - destruct (isSubmitting (ui b)); [done|].
    unfold handleSubmitExpense. by repeat case_match.
Qed.

Lemma form_events_keep_history_witness :
  let held := [row (Some 10%float) "Approved" (Some "Food")] in
  let b := run [setExpenses held]
             (browser_with (state_with {| fullName := "Ana"; employeeId := "E1" |}
                              true "taxi" None)) in
  expenses (ui (step b (clickSubmit (fetch_resolves (Response.mk 200 None None)))))
  = held.
Proof.
  intros held b.
  apply (form_events_keep_history b
           (clickSubmit (fetch_resolves (Response.mk 200 None None)))).
  reflexivity.
Defined.

(** X11: a history fetch, and the timers that fire when time passes,
    never touch the identity, its saved flag, the comment, the selected
    file, the submitting flag, the message of the expense form or local
    storage. *)
Theorem history_events_keep_form (b : Browser) (ev : Event) :
  is_history_event ev = true →
  let b' := step b ev in
  employee (ui b') = employee (ui b)
  ∧ isEmployeeSaved (ui b') = isEmployeeSaved (ui b)
  ∧ comment (ui b') = comment (ui b)
  ∧ selectedFile (ui b') = selectedFile (ui b)
  ∧ isSubmitting (ui b') = isSubmitting (ui b)
  ∧ expenseMessage (ui b') = expenseMessage (ui b)
  ∧ localStorage b' = localStorage b.
Proof.
  intros Hev b'. subst b'. rewrite step_performed.
  apply (run_invariant
           (λ b', employee (ui b') = employee (ui b)
                  ∧ isEmployeeSaved (ui b') = isEmployeeSaved (ui b)
                  ∧ comment (ui b') = comment (ui b)
                  ∧ selectedFile (ui b') = selectedFile (ui b)
                  ∧ isSubmitting (ui b') = isSubmitting (ui b)
                  ∧ expenseMessage (ui b') = expenseMessage (ui b)
                  ∧ localStorage b' = localStorage b)
           (λ eff, history_effect eff = true ∨ eff = setEmployeeMessage None)).
  - intros b0 eff [Heff| ->] HQ; [by destruct eff | done].
  - destruct ev as [v|v|v|f| |answer|answer|ms answer]; try discriminate Hev;
      cbn [performed].
    + destruct (isEmployeeSaved (ui b) && negb (isLoadingHistory (ui b)));
        [|constructor].
      eapply Forall_impl; [apply fetchExpenseHistory_effects|]. naive_solver.
    + apply Forall_list_bind. intros t _.
      eapply Forall_impl; [apply fire_effects|]. naive_solver.
  - by destruct ev.
Qed.

Lemma history_events_keep_form_witness :
  let b := steps [ changeFullName "Ana"; changeEmployeeId "E1"; clickSave;
                   changeComment "taxi" ] initial in
  let b' := step b (elapse 3000 (query_resolves None None)) in
  comment (ui b') = "taxi" ∧ employeeMessage (ui b') = None.
Proof.
  intros b b'.
  destruct (history_events_keep_form b (elapse 3000 (query_resolves None None)))
    as (_ & _ & Hcomment & _); [reflexivity|].
  split; [exact Hcomment | reflexivity].
Defined.

Lemma only_save_marks_and_stores (b : Browser) (ev : Event) :
  match ev with clickSave => False | _ => True end →
  isEmployeeSaved (ui (step b ev)) = isEmployeeSaved (ui b)
  ∧ localStorage (step b ev) = localStorage b.
Proof.
  intros Hev. rewrite step_performed.
  apply (run_invariant
           (λ b', isEmployeeSaved (ui b') = isEmployeeSaved (ui b)
                  ∧ localStorage b' = localStorage b)
           (λ eff, match eff with
                   | setIsEmployeeSaved _ | localStorage_setItem _ _ => False
                   | _ => True
                   end)).
  - intros b0 eff Heff HQ. by destruct eff.
  - destruct ev as [v|v|v|f| |answer|answer|ms answer]; cbn [performed];
      try done.
    + repeat constructor.
    + repeat constructor.
    + repeat constructor.
    + unfold handleFileChange. repeat case_match; repeat constructor.
    + destruct (isSubmitting (ui b)); [constructor|].
      unfold handleSubmitExpense. repeat case_match; repeat constructor.
    + destruct (isEmployeeSaved (ui b) && negb (isLoadingHistory (ui b)));
        [|constructor].
      eapply Forall_impl; [apply fetchExpenseHistory_effects|].
      intros eff [Heff _]. by destruct eff.
    + apply Forall_list_bind. intros t _.
      eapply Forall_impl; [apply fire_effects|].
      intros eff [[Heff| ->] _]; [by destruct eff | done].
  - by destruct ev.
Qed.

(** X12: if at the start the saved flag comes with a record stored under
    [techcorp_employee] (as on the first render, where nothing is saved),
    it does so in every state reached. *)
Theorem saved_flag_implies_stored (b b' : Browser) :
  reachable_from b b' →
  (isEmployeeSaved (ui b) = true →
   is_Some (localStorage b !! "techcorp_employee")) →
  isEmployeeSaved (ui b') = true →
  is_Some (localStorage b' !! "techcorp_employee").
Proof.
  intros Hreach Hb.
  assert (Hstep : ∀ b0 ev,
            (isEmployeeSaved (ui b0) = true →
             is_Some (localStorage b0 !! "techcorp_employee")) →
            isEmployeeSaved (ui (step b0 ev)) = true →
            is_Some (localStorage (step b0 ev) !! "techcorp_employee")).
  { intros b0 ev H0.
    assert (Hother : match ev with clickSave => False | _ => True end →
                     isEmployeeSaved (ui (step b0 ev)) = true →
                     is_Some (localStorage (step b0 ev) !! "techcorp_employee")).
    { intros Hev. destruct (only_save_marks_and_stores b0 ev Hev) as [-> ->].
      done. }
    destruct ev; try (by apply Hother).
    cbn [step]. unfold handleSaveEmployee.
    repeat case_match; cbn; try done. intros _. by rewrite lookup_insert_eq. }
  induction Hreach as [|b' ev _ IH|b' ev answer _ IH]; [done|by apply Hstep|].
  unfold step_then_effect.
  enough (isEmployeeSaved
            (ui (run (historyEffect (ui b') (ui (step b' ev)) answer) (step b' ev)))
          = isEmployeeSaved (ui (step b' ev))
          ∧ localStorage
              (run (historyEffect (ui b') (ui (step b' ev)) answer) (step b' ev))
            = localStorage (step b' ev)) as [-> ->] by by apply Hstep.
  apply (run_invariant
           (λ b0, isEmployeeSaved (ui b0) = isEmployeeSaved (ui (step b' ev))
                  ∧ localStorage b0 = localStorage (step b' ev))
           (λ eff, history_effect eff = true)); [| |done].
  - intros b0 eff Heff HQ. by destruct eff.
  - eapply Forall_impl; [apply historyEffect_effects|]. naive_solver.
Qed.

Lemma saved_flag_implies_stored_witness :
  is_Some (localStorage
             (step (step_then_effect
                      (steps [changeFullName "Ana"; changeEmployeeId "E1"] initial)
                      clickSave (query_resolves None None))
                (changeFullName EmptyString))
           !! "techcorp_employee").
Proof.
  apply (saved_flag_implies_stored initial);
    [repeat constructor | discriminate | reflexivity].
Defined.

(** ** Submissions *)

(** What a validated submission leaves of the state. *)
Lemma handleSubmitExpense_state (b : Browser) (answer : FetchResult) :
  passes_validation (ui b) →
  let b' := run (handleSubmitExpense (ui b) answer) b in
  employee (ui b') = employee (ui b)
  ∧ isEmployeeSaved (ui b') = isEmployeeSaved (ui b)
  ∧ isSubmitting (ui b') = false
  ∧ localStorage b' = localStorage b
  ∧ match answer with
    | fetch_resolves r =>
        if Response.ok r then
          comment (ui b') = EmptyString ∧ selectedFile (ui b') = None
          ∧ timers b' = schedule (clock b + 1000) (refreshHistory (ui b)) (timers b)
          ∧ expenseMessage (ui b')
            = Some match (if declares_json r then Response.json r else None) with
                   | Some data =>
                       match Body.status data with
                       | Some status =>
                           if string_truthy status
                           then processed_message status (Body.reason data)
                           else sent_message
                       | None => sent_message
                       end
                   | None => sent_message
                   end
        else comment (ui b') = comment (ui b)
             ∧ selectedFile (ui b') = selectedFile (ui b)
             ∧ timers b' = timers b
    | fetch_rejects _ =>
        comment (ui b') = comment (ui b)
        ∧ selectedFile (ui b') = selectedFile (ui b)
        ∧ timers b' = timers b
    end.
Proof.
  intros Hpass. cbn zeta. rewrite handleSubmitExpense_validated by done.
  destruct answer as [e|r]; [done|]. by destruct (Response.ok r).
Qed.

(** X13: a submission that passes validation and is answered 2xx clears
    the comment and the selected file, shows a message of the success
    kind, clears the submitting flag and queues one history refresh, due
    1000 ms later, that carries the state the submission started from. *)
Theorem handleSubmitExpense_success (b : Browser) (r : Response.t) :
  passes_validation (ui b) → Response.ok r = true →
  let b' := run (handleSubmitExpense (ui b) (fetch_resolves r)) b in
  comment (ui b') = EmptyString
  ∧ selectedFile (ui b') = None
  ∧ isSubmitting (ui b') = false
  ∧ (∃ text, expenseMessage (ui b') = Some (Message.mk success text))
  ∧ timers b' = schedule (clock b + 1000) (refreshHistory (ui b)) (timers b).
Proof.
  intros Hpass Hok b'.
  destruct (handleSubmitExpense_state b (fetch_resolves r) Hpass)
    as (_ & _ & Hflag & _ & Hrest).
  rewrite Hok in Hrest. destruct Hrest as (Hcomment & Hfile & Htimers & Hmsg).
  repeat split; try done.
  subst b'. rewrite Hmsg. unfold processed_message, sent_message.
  repeat case_match; eauto.
Qed.

Lemma handleSubmitExpense_success_witness :
  let st := state_with {| fullName := "Ana"; employeeId := "E1" |} true "taxi"
              (Some (File.mk "r.png" "image/png")) in
  let b := browser_with st in
  let r := Response.mk 201 None None in
  let b' := run (handleSubmitExpense st (fetch_resolves r)) b in
  comment (ui b') = EmptyString
  ∧ selectedFile (ui b') = None
  ∧ isSubmitting (ui b') = false
  ∧ (∃ text, expenseMessage (ui b') = Some (Message.mk success text))
  ∧ timers b' = [(1000, refreshHistory st)].
Proof.
  intros st b r. apply (handleSubmitExpense_success b r); [|reflexivity].
  split; [repeat split; discriminate|]. split; [discriminate|].
  intros f [= <-]. by apply (bool_decide_unpack _).
Defined.

(** X14: after a 2xx answer the message names the status of the parsed
    body, followed by its reason when there is one; the body is ignored,
    and the generic message shown, when the response does not declare
    JSON, when its body does not parse, or when the status is missing or
    empty. *)
Theorem success_message_text (b : Browser) (r : Response.t) :
  passes_validation (ui b) → Response.ok r = true →
  let shown :=
    expenseMessage (ui (run (handleSubmitExpense (ui b) (fetch_resolves r)) b)) in
  (declares_json r = false → shown = Some sent_message)
  ∧ (Response.json r = None → shown = Some sent_message)
  ∧ (∀ body, Response.json r = Some body →
       string_or (Body.status body) EmptyString = EmptyString →
       shown = Some sent_message)
  ∧ (∀ body status, declares_json r = true → Response.json r = Some body →
       Body.status body = Some status → status ≠ EmptyString →
       shown
       = Some (Message.mk success
                 ("Разходът е обработен! Статус: " +:+ status
                  +:+ match Body.reason body with
                      | Some reason =>
                          if string_truthy reason then " - " +:+ reason
                          else EmptyString
                      | None => EmptyString
                      end))).
Proof.
  intros Hpass Hok shown.
  destruct (handleSubmitExpense_state b (fetch_resolves r) Hpass)
    as (_ & _ & _ & _ & Hrest).
  rewrite Hok in Hrest. destruct Hrest as (_ & _ & _ & Hmsg).
  subst shown. rewrite Hmsg. clear Hmsg. repeat split.
  - by intros ->.
  - intros ->. by destruct (declares_json r).
  - intros body -> Hstatus. destruct (declares_json r); [|done].
    unfold string_or in Hstatus. destruct (Body.status body) as [status|]; [|done].
    destruct (string_truthy status) eqn:Htruthy; [|done].
    subst status. discriminate Htruthy.
  - intros body status -> -> -> Hstatus%string_truthy_true. by rewrite Hstatus.
Qed.

Lemma success_message_text_witness :
  let st := state_with {| fullName := "Ana"; employeeId := "E1" |} true "taxi" None in
  let b := browser_with st in
  let body := Body.mk (Some "Rejected") (Some "duplicate") in
  let typed := Response.mk 200 (Some "application/json; charset=utf-8") (Some body) in
  let untyped := Response.mk 200 (Some "text/plain") (Some body) in
  expenseMessage (ui (run (handleSubmitExpense st (fetch_resolves typed)) b))
  = Some (Message.mk success "Разходът е обработен! Статус: Rejected - duplicate")
  ∧ expenseMessage (ui (run (handleSubmitExpense st (fetch_resolves untyped)) b))
    = Some sent_message.
Proof.
  intros st b body typed untyped.
  assert (Hpass : passes_validation (ui b)).
  { split; [repeat split; discriminate|]. split; [discriminate|].
    intros f Hf. discriminate Hf. }
  split.
  - destruct (success_message_text b typed Hpass eq_refl) as (_ & _ & _ & H).
    apply (H body "Rejected"); [reflexivity..|discriminate].
  - destruct (success_message_text b untyped Hpass eq_refl) as (H & _).
    apply H. reflexivity.
Defined.

(** X15: right after a successful submission a second one is refused for
    want of a receipt or a description, without any request: the form was
    cleared. *)
Theorem resubmission_after_success_refused (b : Browser) (r : Response.t)
    (answer : FetchResult) :
  passes_validation (ui b) → Response.ok r = true →
  let b' := run (handleSubmitExpense (ui b) (fetch_resolves r)) b in
  handleSubmitExpense (ui b') answer
  = [ setExpenseMessage None;
      setExpenseMessage (Some receipt_or_description_required) ].
Proof.
  intros Hpass Hok b'.
  destruct (handleSubmitExpense_state b (fetch_resolves r) Hpass)
    as (Hemployee & Hsaved & _ & _ & Hrest).
  rewrite Hok in Hrest. destruct Hrest as (Hcomment & Hfile & _).
  fold b' in Hemployee, Hsaved, Hcomment, Hfile.
  destruct Hpass as (Hid%no_identity_false & _).
  unfold handleSubmitExpense.
  replace (no_identity (ui b')) with false
    by (unfold no_identity in *; by rewrite Hemployee, Hsaved).
  by rewrite Hfile, Hcomment.
Qed.

Lemma resubmission_after_success_refused_witness :
  let st := state_with {| fullName := "Ana"; employeeId := "E1" |} true "taxi" None in
  let b := browser_with st in
  let ok := fetch_resolves (Response.mk 200 None None) in
  handleSubmitExpense (ui (run (handleSubmitExpense st ok) b)) ok
  = [ setExpenseMessage None;
      setExpenseMessage (Some receipt_or_description_required) ].
Proof.
  intros st b ok.
  apply (resubmission_after_success_refused b (Response.mk 200 None None) ok);
    [|reflexivity].
  split; [repeat split; discriminate|]. split; [discriminate|].
  intros f Hf. discriminate Hf.
Defined.

(** X16: after a failed submission the form still passes validation, and
    submitting again posts the same form data. *)
Theorem retry_after_failure_posts_same_form (b : Browser)
    (answer answer' : FetchResult) :
  passes_validation (ui b) → submission_fails answer →
  let b' := run (handleSubmitExpense (ui b) answer) b in
  passes_validation (ui b')
  ∧ ∃ rest,
      handleSubmitExpense (ui b') answer'
      = setExpenseMessage None :: setIsSubmitting true
        :: fetch N8N_WEBHOOK_URL "POST" (formData (ui b)) :: rest.
Proof.
  intros Hpass Hfails b'.
  destruct (handleSubmitExpense_state b answer Hpass)
    as (Hemployee & Hsaved & _ & _ & Hrest).
  assert (Hform : comment (ui b') = comment (ui b)
                  ∧ selectedFile (ui b') = selectedFile (ui b)).
  { destruct answer as [e|r]; [naive_solver|].
    cbn in Hfails. rewrite Hfails in Hrest. naive_solver. }
  destruct Hform as [Hcomment Hfile].
  fold b' in Hemployee, Hsaved.
  assert (Hpass' : passes_validation (ui b')).
  { unfold passes_validation, identity_saved in *.
    by rewrite Hemployee, Hsaved, Hcomment, Hfile. }
  split; [done|].
  rewrite handleSubmitExpense_validated by done.
  unfold formData. rewrite Hemployee, Hcomment, Hfile. eauto.
Qed.

Lemma retry_after_failure_posts_same_form_witness :
  let st := state_with {| fullName := "Ana"; employeeId := "E1" |} true " taxi " None in
  let b := browser_with st in
  let down := fetch_rejects {| message := None |} in
  ∃ rest,
    handleSubmitExpense (ui (run (handleSubmitExpense st down) b)) down
    = setExpenseMessage None :: setIsSubmitting true
      :: fetch N8N_WEBHOOK_URL "POST"
           [ ("full_name", field "Ana"); ("employee_id", field "E1");
             ("comment", field "taxi") ]
      :: rest.
Proof.
  intros st b down.
  apply (retry_after_failure_posts_same_form b down down); [|exact I].
  split; [repeat split; discriminate|]. split; [discriminate|].
  intros f Hf. discriminate Hf.
Defined.

(** ** The identity after the first save *)

(** X17: once the identity is saved, replacing the name by a blank one
    and saving again shows the name error and stores nothing, but the
    identity stays marked saved and a later valid submission posts the
    blank name. *)
Theorem rejected_save_keeps_identity_usable (b : Browser) (v : string) :
  isEmployeeSaved (ui b) = true →
  employeeId (employee (ui b)) ≠ EmptyString →
  v ≠ EmptyString → trim v = EmptyString →
  let b' := steps [changeFullName v; clickSave] b in
  employeeMessage (ui b') = Some name_required
  ∧ isEmployeeSaved (ui b') = true
  ∧ localStorage b' = localStorage b
  ∧ ∀ answer,
      (selectedFile (ui b) = None → trim (comment (ui b)) ≠ EmptyString) →
      (∀ f, selectedFile (ui b) = Some f → File.type f ∈ ALLOWED_FILE_TYPES) →
      ∃ form rest,
        handleSubmitExpense (ui b') answer
        = setExpenseMessage None :: setIsSubmitting true
          :: fetch N8N_WEBHOOK_URL "POST" (("full_name", field v) :: form)
          :: rest.
Proof.
  intros Hsaved Hid Hv Htrim b'. subst b'.
  cbn [steps foldl step run perform with_ui ui employee fullName].
  unfold handleSaveEmployee.
  cbn [ui employee fullName]. rewrite Htrim. cbn.
  repeat split; [done..|].
  intros answer Hsome Htype.
  rewrite handleSubmitExpense_validated; [unfold formData; cbn; eauto|].
  split; [|done]. by repeat split.
Qed.

Lemma rejected_save_keeps_identity_usable_witness :
  let saved := steps [changeFullName "Ana"; changeEmployeeId "E1"; clickSave;
                      changeComment "taxi"] initial in
  let b' := steps [changeFullName "  "; clickSave] saved in
  employeeMessage (ui b') = Some name_required
  ∧ isEmployeeSaved (ui b') = true
  ∧ ∃ form rest,
      handleSubmitExpense (ui b') (fetch_rejects {| message := None |})
      = setExpenseMessage None :: setIsSubmitting true
        :: fetch N8N_WEBHOOK_URL "POST" (("full_name", field "  ") :: form)
        :: rest.
Proof.
  intros saved b'.
  destruct (rejected_save_keeps_identity_usable saved "  ")
    as (Hmsg & Hflag & _ & Hpost); [reflexivity | discriminate.. | reflexivity |].
  split; [exact Hmsg|]. split; [exact Hflag|].
  apply Hpost; [discriminate|]. intros f Hf. discriminate Hf.
Defined.

(** ** The history effect hook *)

(** X20: while the identity is marked saved, typing another non-empty id
    makes the hook query the history for the id as typed, without any
    save: on success the list shown is that query's data, and local
    storage still holds what was saved. *)
Theorem typed_id_is_queried (b : Browser) (v : string) (answer : QueryResult) :
  isEmployeeSaved (ui b) = true →
  fullName (employee (ui b)) ≠ EmptyString →
  v ≠ EmptyString → v ≠ employeeId (employee (ui b)) →
  let b' := step_then_effect b (changeEmployeeId v) answer in
  (∃ rest,
     historyEffect (ui b) (ui (step b (changeEmployeeId v))) answer
     = setIsLoadingHistory true :: setHistoryError None
       :: supabase_select "expenses" "*" "employee_id" v "created_at" false
       :: rest)
  ∧ (∀ data, answer = query_resolves data None →
       expenses (ui b') = default [] data)
  ∧ localStorage b' = localStorage b.
Proof.
  intros Hsaved Hname Hv Hnew b'. subst b'.
  unfold step_then_effect, historyEffect, dependencies.
  cbn [step run foldl perform with_ui ui employee fullName employeeId
       isEmployeeSaved].
  rewrite bool_decide_eq_false_2 by congruence. rewrite Hsaved.
  unfold fetchExpenseHistory, no_identity.
  cbn [ui employee fullName employeeId isEmployeeSaved].
  rewrite ?Hsaved, !(proj2 (string_truthy_true _)) by done. cbn [negb orb].
  split; [eauto|]. split.
  - intros data ->. done.
  - by destruct answer as [e|data [e|]].
Qed.

Lemma typed_id_is_queried_witness :
  let saved :=
    steps [changeFullName "Ana"; changeEmployeeId "E1"; clickSave] initial in
  let theirs := [row (Some 99%float) "Approved" (Some "Travel")] in
  let b' := step_then_effect saved (changeEmployeeId "E2")
              (query_resolves (Some theirs) None) in
  expenses (ui b') = theirs
  ∧ localStorage b' !! "techcorp_employee"
    = Some (JSON_stringify [("fullName", "Ana"); ("employeeId", "E1")]).
Proof.
  intros saved theirs b'.
  destruct (typed_id_is_queried saved "E2" (query_resolves (Some theirs) None))
    as (_ & Hlist & Hstore); [reflexivity | discriminate.. |].
  split.
  - apply (Hlist (Some theirs)). reflexivity.
  - fold b' in Hstore. rewrite Hstore. reflexivity.
Defined.

(** ** Timers *)

Lemma elem_of_schedule t due cb ts :
  t ∈ schedule due cb ts ↔ t = (due, cb) ∨ t ∈ ts.
Proof.
  induction ts as [|[d c] ts IH]; cbn.
  - rewrite list_elem_of_singleton, elem_of_nil. naive_solver.
  - destruct (d <=? due)%nat; rewrite !elem_of_cons, ?IH; naive_solver.
Qed.

(** No event but the passing of time removes a timer or moves the clock. *)
Lemma timers_persist (b : Browser) (events : list Event) (t : nat * Callback) :
  Forall (λ ev, is_elapse ev = false) events →
  t ∈ timers b →
  t ∈ timers (steps events b) ∧ clock (steps events b) = clock b.
Proof.
  intros Hall. revert b.
  induction Hall as [|ev events Hev _ IH]; intros b Ht; [done|].
  change (steps (ev :: events) b) with (steps events (step b ev)).
  assert (Hstep : t ∈ timers (step b ev) ∧ clock (step b ev) = clock b).
  { rewrite step_performed.
    replace (before b ev) with b by (by destruct ev).
    apply (run_invariant (λ b', t ∈ timers b' ∧ clock b' = clock b)
             (λ _, True)); [| apply Forall_true | ]; try done.
    intros b0 eff _ [Hin Hclock]. destruct eff; try done.
    cbn. split; [|done]. apply elem_of_schedule. by right. }
  destruct Hstep as [Hin Hclock].
  destruct (IH _ Hin) as [Hin' Hclock']. split; [done | congruence].
Qed.

(** X21: the history refresh queued by a successful submission is never
    cancelled, and when it fires, one second later, it queries for the
    employee id held when the submission was made, whatever was typed or
    saved in between. *)
Theorem refresh_uses_id_at_submission (b : Browser) (r : Response.t)
    (events : list Event) (answer : QueryResult) :
  passes_validation (ui b) → isSubmitting (ui b) = false →
  Response.ok r = true →
  Forall (λ ev, is_elapse ev = false) events →
  let b' := steps events (step b (clickSubmit (fetch_resolves r))) in
  (clock b + 1000, refreshHistory (ui b)) ∈ timers b'
  ∧ supabase_select "expenses" "*" "employee_id" (employeeId (employee (ui b)))
      "created_at" false
    ∈ performed b' (elapse 1000 answer).
Proof.
  intros Hpass Hidle Hok Hevents b'.
  assert (Hqueued : (clock b + 1000, refreshHistory (ui b))
                    ∈ timers (step b (clickSubmit (fetch_resolves r)))
                    ∧ clock (step b (clickSubmit (fetch_resolves r))) = clock b).
  { cbn [step]. rewrite Hidle.
    destruct (handleSubmitExpense_state b (fetch_resolves r) Hpass)
      as (_ & _ & _ & _ & Hrest).
    rewrite Hok in Hrest. destruct Hrest as (_ & _ & -> & _).
    split; [apply elem_of_schedule; by left|].
    rewrite handleSubmitExpense_validated by done. rewrite Hok.
    by destruct (declares_json r). }
  destruct Hqueued as [Hqueued Hclock].
  destruct (timers_persist _ events _ Hevents Hqueued) as [Hin Hclock'].
  fold b' in Hin, Hclock'. split; [done|].
  cbn [performed]. apply list_elem_of_bind.
  exists (clock b + 1000, refreshHistory (ui b)). split.
  - cbn [fire snd]. unfold fetchExpenseHistory.
    destruct Hpass as (Hid%no_identity_false & _). rewrite Hid.
    set_solver.
  - apply list_elem_of_filter. split; [|done]. cbn. lia.
Qed.

Lemma refresh_uses_id_at_submission_witness :
  let b := steps [ changeFullName "Ana"; changeEmployeeId "E1"; clickSave;
                   changeComment "taxi" ] initial in
  let ok := fetch_resolves (Response.mk 200 None None) in
  let b' := steps [changeEmployeeId "E2"; clickSave] (step b (clickSubmit ok)) in
  employeeId (employee (ui b')) = "E2"
  ∧ supabase_select "expenses" "*" "employee_id" "E1" "created_at" false
    ∈ performed b' (elapse 1000 (query_resolves None None)).
Proof.
  intros b ok b'. split; [reflexivity|].
  apply (refresh_uses_id_at_submission b (Response.mk 200 None None)
           [changeEmployeeId "E2"; clickSave] (query_resolves None None)).
  - split; [repeat split; discriminate|]. split; [discriminate|].
    intros f Hf. discriminate Hf.
  - reflexivity.
  - reflexivity.
  - repeat constructor.
Defined.

(** ** More on the breakdown, the save and the hook *)

Lemma Forall_define (P : string * Value → Prop) o k v :
  Forall P o → (∀ k', k' = k → P (k', v)) → Forall P (define o k v).
Proof.
  intros Ho Hv. induction o as [|[k' v'] o IH]; cbn.
  - constructor; [by apply Hv | constructor].
  - destruct (String.eqb_spec k' k) as [->|Hne].
    + inversion_clear Ho. constructor; [by apply Hv | done].
    + inversion_clear Ho. constructor; [done | by apply IH].
Qed.

Lemma own_elem_of o k v : own o k = Some v → (k, v) ∈ o.
Proof.
  induction o as [|[k' v'] o IH]; cbn; [done|].
  destruct (String.eqb_spec k' k) as [->|Hne].
  - intros [= ->]. by left.
  - intros Hown. right. by apply IH.
Qed.

Lemma group_well_typed o exp :
  Forall well_typed_entry o → Forall well_typed_entry (group o exp).
Proof.
  intros Ho. unfold group, JS.set.
  set (c := category_or_other exp).
  destruct (String.eqb c "__proto__"); [done|].
  apply Forall_define; [done|]. intros k' ->.
  unfold well_typed_entry, get. cbn [fst snd].
  destruct (own o c) as [v|] eqn:Hown.
  - apply own_elem_of in Hown. rewrite Forall_forall in Ho.
    specialize (Ho _ Hown). unfold well_typed_entry in Ho. cbn [fst snd] in Ho.
    case_bool_decide.
    + by subst v.
    + destruct Ho as [x ->]. unfold or. cbn [truthy].
      destruct (number_truthy x); cbn; eauto.
  - case_bool_decide; cbn; eauto.
Qed.

Lemma foldl_group_well_typed expenses o :
  Forall well_typed_entry o → Forall well_typed_entry (foldl group o expenses).
Proof.
  revert o. induction expenses as [|exp expenses IH]; intros o Ho; [done|].
  cbn [foldl]. by apply IH, group_well_typed.
Qed.

(** X22: every value of the breakdown is a number, except under a key
    that names a property of [Object.prototype] (such as ["toString"]),
    where it is a string. *)
Theorem byCategory_values_typed (expenses : list Expense) :
  Forall well_typed_entry (Object_entries (byCategory (stats expenses))).
Proof.
  rewrite stats_unfold. cbn [byCategory].
  rewrite Object_entries_Permutation.
  apply foldl_group_well_typed. constructor.
Qed.

(** X23: saving the identity a second time, nothing else having happened,
    stores the same record and leaves the identity and its flag as they
    were. *)
Theorem save_twice (b : Browser) :
  let once := step b clickSave in
  let twice := step once clickSave in
  localStorage twice = localStorage once
  ∧ employee (ui twice) = employee (ui once)
  ∧ isEmployeeSaved (ui twice) = isEmployeeSaved (ui once)
  ∧ employeeMessage (ui twice) = employeeMessage (ui once).
Proof.
  cbn zeta. cbn [step]. unfold handleSaveEmployee.
  destruct (string_truthy (trim (fullName (employee (ui b))))) eqn:Hname;
    cbn [negb].
  2:{ cbn. rewrite Hname. done. }
  destruct (string_truthy (trim (employeeId (employee (ui b))))) eqn:Hid;
    cbn [negb].
  2:{ cbn. rewrite Hname, Hid. done. }
  cbn. rewrite Hname, Hid. cbn. by rewrite insert_insert_eq.
Qed.

Lemma quiet_events_keep_dependencies (b : Browser) (ev : Event) :
  changes_identity b ev = false →
  dependencies (ui (step b ev)) = dependencies (ui b).
Proof.
  intros Hev. rewrite step_performed.
  enough (employee (ui (run (performed b ev) (before b ev))) = employee (ui b)
          ∧ isEmployeeSaved (ui (run (performed b ev) (before b ev)))
            = isEmployeeSaved (ui b)) as [He Hs]
    by (unfold dependencies; by rewrite He, Hs).
  apply (run_invariant
           (λ b', employee (ui b') = employee (ui b)
                  ∧ isEmployeeSaved (ui b') = isEmployeeSaved (ui b))
           (λ eff, match eff with
                   | setEmployee _ => False
                   | setIsEmployeeSaved v => v = isEmployeeSaved (ui b)
                   | _ => True
                   end)).
  - intros b0 eff Heff [He Hs]. destruct eff; try done; cbn; by subst.
  - destruct ev as [v|v|v|f| |answer|answer|ms answer]; cbn [performed];
      try discriminate Hev.
    + repeat constructor.
    + unfold handleFileChange. repeat case_match; repeat constructor.
    + cbn in Hev. apply negb_false_iff in Hev.
      unfold handleSaveEmployee. repeat case_match; repeat constructor. done.
    + destruct (isSubmitting (ui b)); [constructor|].
      unfold handleSubmitExpense. repeat case_match; repeat constructor.
    + destruct (isEmployeeSaved (ui b) && negb (isLoadingHistory (ui b)));
        [|constructor].
      eapply Forall_impl; [apply fetchExpenseHistory_effects|].
      intros eff [Heff _]. by destruct eff.
    + apply Forall_list_bind. intros t _.
      eapply Forall_impl; [apply fire_effects|].
      intros eff [[Heff| ->] _]; [by destruct eff | done].
  - by destruct ev.
Qed.

(** X24: the history hook stays silent after every event except an edit
    of the name or the id and the save that first marks the identity
    saved: typing a comment, choosing a file, submitting, refreshing,
    timers firing and saving again never make it fetch. *)
Theorem hook_silent (b : Browser) (ev : Event) (answer : QueryResult) :
  changes_identity b ev = false →
  historyEffect (ui b) (ui (step b ev)) answer = []
  ∧ step_then_effect b ev answer = step b ev.
Proof.
  intros Hev. unfold step_then_effect, historyEffect.
  rewrite bool_decide_eq_true_2 by (by rewrite quiet_events_keep_dependencies).
  done.
Qed.

Lemma hook_silent_witness :
  let saved :=
    steps [changeFullName "Ana"; changeEmployeeId "E1"; clickSave] initial in
  historyEffect (ui saved) (ui (step saved clickSave)) (query_resolves None None)
  = []
  ∧ historyEffect (ui saved) (ui (step saved (changeComment "taxi")))
      (query_resolves None None) = [].
Proof.
  intros saved. split.
  - apply (hook_silent saved clickSave). reflexivity.
  - apply (hook_silent saved (changeComment "taxi")). reflexivity.
Defined.

(** ** The history section *)

Lemma breakdown_key_is_label expenses k v :
  (k, v) ∈ Object_entries (foldl group [] expenses) →
  ∃ exp, exp ∈ expenses ∧ category_or_other exp = k.
Proof.
  rewrite Object_entries_Permutation. intros Hin.
  assert (Hk : k ∈ (foldl group [] expenses).*1)
    by (apply list_elem_of_fmap; by exists (k, v)).
  rewrite byCategory_own_keys, first_seen_elem_of_iff in Hk.
  apply list_elem_of_filter in Hk as [_ Hk].
  apply list_elem_of_fmap in Hk as (exp & -> & Hexp). eauto.
Qed.

Lemma breakdown_entry_typed expenses p :
  p ∈ Object_entries (foldl group [] expenses) → well_typed_entry p.
Proof.
  rewrite Object_entries_Permutation. intros Hin.
  assert (Hall : Forall well_typed_entry (foldl group [] expenses))
    by (apply foldl_group_well_typed; constructor).
  rewrite Forall_forall in Hall. by apply Hall.
Qed.

(** When the summary throws, a row carries a label that names a property
    of [Object.prototype]; when the table throws, a row has no amount. *)
Lemma summary_throws_label st :
  summary_throws st = true →
  ∃ exp, exp ∈ expenses st ∧ category_or_other exp ∈ Object_prototype.
Proof.
  unfold summary_throws. rewrite stats_unfold. cbn [byCategory].
  intros ([k v] & Hin%list_elem_of_In & Hthrows)%existsb_exists.
  pose proof (breakdown_entry_typed _ _ Hin) as Htyped.
  destruct (breakdown_key_is_label _ _ _ Hin) as (exp & Hexp & Hk).
  exists exp. split; [done|]. rewrite Hk.
  unfold well_typed_entry in Htyped. cbn [fst snd] in *.
  case_bool_decide; [done|]. destruct Htyped as [x ->]. discriminate Hthrows.
Qed.

Lemma table_throws_amount st :
  table_throws st = true →
  ∃ exp, exp ∈ expenses st ∧ Expense.amount exp = None.
Proof.
  unfold table_throws.
  intros (exp & Hin%list_elem_of_In & Hthrows)%existsb_exists.
  exists exp. split; [done|]. by destruct (Expense.amount exp).
Qed.

Lemma formattable_no_throw st :
  formattable (expenses st) → summary_throws st = false ∧ table_throws st = false.
Proof.
  unfold formattable. rewrite Forall_forall. intros Hrows. split.
  - destruct (summary_throws st) eqn:Hthrows; [|done].
    apply summary_throws_label in Hthrows as (exp & Hexp & Hlabel).
    by destruct (Hrows exp Hexp).
  - destruct (table_throws st) eqn:Hthrows; [|done].
    apply table_throws_amount in Hthrows as (exp & Hexp & Hamount).
    destruct (Hrows exp Hexp) as [[x Hx] _]. congruence.
Qed.

(** X18: when the history section renders, it never shows the note that
    there are no expenses together with rows, a summary, the loading note
    or an error; rows are never shown without the summary; and once the
    identity is saved it shows at least one of loading note, error, empty
    note and rows.  The render throws, and nothing is shown, only with a
    saved identity and a held row that has no amount or whose label names
    a property of [Object.prototype]. *)
Theorem history_view_consistent (st : AppState) :
  match history_view st with
  | renders v =>
      (empty_note v = true →
       table v = None ∧ summary v = None ∧ loading_note v = false
       ∧ error_note v = None)
      ∧ (is_Some (table v) → is_Some (summary v))
      ∧ (identity_prompt v = false →
         loading_note v = true ∨ is_Some (error_note v) ∨ empty_note v = true
         ∨ is_Some (table v))
      ∧ (identity_prompt v = true ↔ isEmployeeSaved st = false)
  | render_throws =>
      isEmployeeSaved st = true
      ∧ ∃ exp, exp ∈ expenses st
               ∧ (Expense.amount exp = None
                  ∨ category_or_other exp ∈ Object_prototype)
  end.
Proof.
  unfold history_view.
  destruct (isEmployeeSaved st); cbn [negb].
  2:{ cbn. repeat split; try done; by intros []. }
  destruct (nonempty (expenses st) && summary_throws st) eqn:Hsummary.
  { apply andb_true_iff in Hsummary as [_ Hthrows].
    apply summary_throws_label in Hthrows as (exp & ? & ?). eauto. }
  destruct (negb (isLoadingHistory st) && nonempty (expenses st)
            && table_throws st) eqn:Htable.
  { apply andb_true_iff in Htable as [_ Hthrows].
    apply table_throws_amount in Hthrows as (exp & ? & ?). eauto. }
  clear Hsummary Htable. cbn.
  destruct (isLoadingHistory st), (expenses st) as [|exp rest],
    (historyError st) as [[|c text]|]; cbn; naive_solver.
Qed.

Lemma history_view_consistent_witness :
  let ana := {| fullName := "Ana"; employeeId := "E1" |} in
  let quiet := state_with ana true EmptyString None in
  let broken := ui (run [setExpenses [row None "Approved" (Some "Food")]]
                      (browser_with quiet)) in
  (∃ v, history_view quiet = renders v
        ∧ empty_note v = true ∧ table v = None ∧ summary v = None)
  ∧ history_view broken = render_throws.
Proof.
  intros ana quiet broken. split.
  - eexists. split; [reflexivity|].
    destruct (history_view_consistent quiet) as (Hempty & _).
    destruct Hempty as (Ht & Hs & _); [reflexivity|].
    split; [reflexivity|]. split; [exact Ht | exact Hs].
  - reflexivity.
Defined.

(** X19: after a history fetch fails, with the identity marked saved: if
    no rows are held, the section shows the error text and neither the
    loading note nor the note that there are no expenses; if rows are
    held and the page can format them (each has an amount, no label names
    a property of [Object.prototype]), it shows the error text together
    with the table and the summary of the rows held before. *)
Theorem failed_fetch_view (closure : AppState) (b : Browser)
    (answer : QueryResult) :
  identity_saved closure → isEmployeeSaved (ui b) = true →
  query_fails answer →
  formattable (expenses (ui b)) →
  ∃ v,
    history_view (ui (run (fetchExpenseHistory closure answer) b)) = renders v
    ∧ error_note v = Some history_error_text
    ∧ empty_note v = false
    ∧ loading_note v = false
    ∧ (expenses (ui b) = [] → table v = None ∧ summary v = None)
    ∧ (expenses (ui b) ≠ [] →
       table v = Some (expenses (ui b))
       ∧ summary v = Some (stats (expenses (ui b)))).
Proof.
  intros Hid Hsaved Hfails Hrows.
  apply no_identity_false in Hid.
  set (b' := run (fetchExpenseHistory closure answer) b).
  assert (Hstate : isEmployeeSaved (ui b') = true
                   ∧ isLoadingHistory (ui b') = false
                   ∧ historyError (ui b') = Some history_error_text
                   ∧ expenses (ui b') = expenses (ui b)).
  { subst b'. unfold fetchExpenseHistory. rewrite Hid.
    destruct answer as [e|data [e|]]; [| |done]; by cbn. }
  destruct Hstate as (Hflag & Hload & Herr & Hlist).
  assert (Hok : formattable (expenses (ui b'))) by by rewrite Hlist.
  apply formattable_no_throw in Hok as [Hsummary Htable].
  unfold history_view. rewrite Hflag, Hsummary, Htable, Hload, Herr, Hlist.
  rewrite !andb_false_r. cbn.
  eexists. split; [reflexivity|]. cbn.
  destruct (expenses (ui b)); repeat split; try done.
Qed.

Lemma failed_fetch_view_witness :
  let held := [row (Some 10%float) "Approved" (Some "Food")] in
  let b := run [setExpenses held]
             (browser_with (state_with {| fullName := "Ana"; employeeId := "E1" |}
                              true EmptyString None)) in
  ∃ v,
    history_view
      (ui (run (fetchExpenseHistory (ui b)
                  (query_resolves None (Some {| message := None |}))) b))
    = renders v
    ∧ error_note v = Some history_error_text ∧ table v = Some held.
Proof.
  intros held b.
  destruct (failed_fetch_view (ui b) b
              (query_resolves None (Some {| message := None |})))
    as (v & Hview & Herr & _ & _ & _ & Hrows).
  - repeat split; discriminate.
  - reflexivity.
  - exact I.
  - repeat constructor. by eexists. by apply (bool_decide_unpack _).
  - exists v. split; [exact Hview|]. split; [exact Herr|].
    apply Hrows. discriminate.
Defined.
